(** * youtube-subscriptions-transfer: the resumable transfer engine

    A shallow embedding of the checkpointed variant of [main] (the file
    that declares [writeStatusesToFile]) together with the properties of
    its load / apply / save cycle.

    The remote services, the file system and the gob codec are outside
    the repository.  They appear here as explicit state:
    - the destination account is a state machine [Insert] over a state
      type [T] (one call of [Subscriptions.Insert(...).Do()]);
    - the source account is a list of result pages and a final error;
    - the disk maps file names to contents and may refuse to create or
      write;
    - gob is a pair of functions [gobEncode] / [gobDecode].
    Every observable action is appended to a chronological trace. *)

From Stdlib Require Import Ascii List Bool Arith Lia.
From Stdlib.Strings Require Import Byte.
From stdpp Require Import base option list strings pretty gmap.
Import ListNotations.

(** ** Go values *)

(** A Go [error] value is [nil] or carries the text of [err.Error()],
    the only thing the program ever inspects or prints. *)
Definition error := option string.

(** [strings.HasSuffix]: [len(s) >= len(suffix) &&
    s[len(s)-len(suffix):] == suffix]. *)
Definition HasSuffix (s suffix : string) : bool :=
  Nat.leb (String.length suffix) (String.length s) &&
  String.eqb
    (String.substring (String.length s - String.length suffix)
               (String.length suffix) s)
    suffix.

(** The line feed written as [\n] in the format strings. *)
Definition newline : string := String (ascii_of_nat 10) EmptyString.

(** [%v] applied to a slice index or a length. *)
Definition fmtInt (n : nat) : string := pretty n.

(** The parts of [youtube.Subscription] that the program touches.  The
    Go fields are pointers, hence [option]. *)
Record youtube_ResourceId := {
  ChannelId : string;
  Kind : string
}.

Record youtube_SubscriptionSnippet := {
  Title : string;
  ResourceId : option youtube_ResourceId
}.

Record youtube_Subscription := {
  Snippet : option youtube_SubscriptionSnippet
}.

Record ChannelImportStatus := {
  Channel : option youtube_Subscription;
  Imported : bool
}.

(** ** The world *)

Inductive Event :=
| Stdout (text : string)
| ListCall (parts : list string)
| InsertCall (parts : list string) (body : youtube_Subscription)
| FileWrite (name : string) (content : list byte).

(** [Subscriptions.List(parts).Mine(true).Pages(ctx, f)] hands the pages
    to [f] one by one and then returns [listErr]. *)
Record SourceService := {
  pages : list (list (option youtube_Subscription));
  listErr : error
}.

Record FileSystem := {
  files : gmap string (list byte);
  createErr : error;
  writeErr : error
}.

Record World {T : Type} := {
  disk : FileSystem;
  sourceService : SourceService;
  targetService : T;
  trace : list Event
}.
Arguments World : clear implicits.

(** How [main] ends: it returns (exit status 0), [log.Fatalf] ends the
    process, or a panic unwinds it. *)
Inductive Exit :=
| Returned
| Fatal (msg : string)
| Panic (msg : string).

(** How the [range] loop over the statuses ends: the range is exhausted,
    the [break] of the quota branch is taken, or a nil pointer is
    dereferenced while building the request. *)
Inductive RunOutcome :=
| Completed
| HaltedOnQuota
| Crashed (msg : string).

(** What one execution of the loop body asks of the loop. *)
Inductive Flow :=
| Next
| Break
| NilDeref.

Definition nilDerefMsg : string :=
  "runtime error: invalid memory address or nil pointer dereference".

Definition checkpointFile : string := "importStatus.gob".

Section Engine.
Context {T : Type}.

(** [targetService.Subscriptions.Insert(parts, body).Do()]: the error
    returned and the next state of the destination account. *)
Variable Insert : T -> list string -> youtube_Subscription -> error * T.

(** [gob.NewEncoder(f).Encode(v)] produces [gobEncode v];
    [gob.NewDecoder(f).Decode(&v)] on an empty [v] leaves
    [fst (gobDecode content)] in [v] and returns [snd (gobDecode content)]. *)
Variable gobEncode : list ChannelImportStatus -> list byte.
Variable gobDecode : list byte -> list ChannelImportStatus * error.

Definition emit (e : Event) (w : World T) : World T :=
  {| disk := disk w; sourceService := sourceService w;
     targetService := targetService w; trace := trace w ++ [e] |}.

Definition printf (text : string) (w : World T) : World T :=
  emit (Stdout text) w.

Definition println (text : string) (w : World T) : World T :=
  printf (text +:+ newline) w.

Definition setDisk (d : FileSystem) (w : World T) : World T :=
  {| disk := d; sourceService := sourceService w;
     targetService := targetService w; trace := trace w |}.

Definition setTarget (t : T) (w : World T) : World T :=
  {| disk := disk w; sourceService := sourceService w;
     targetService := t; trace := trace w |}.

(** [os.Open]: the content of the file, or the error. *)
Definition osOpen (name : string) (w : World T) : list byte + string :=
  match files (disk w) !! name with
  | Some content => inl content
  | None => inr ("open " +:+ name +:+ ": no such file or directory")
  end.

(** [os.Create]: truncates or creates the file. *)
Definition osCreate (name : string) (w : World T) : error * World T :=
  match createErr (disk w) with
  | Some e => (Some e, w)
  | None =>
      (None,
       setDisk {| files := <[name := []]> (files (disk w));
                  createErr := createErr (disk w);
                  writeErr := writeErr (disk w) |} w)
  end.

(** The encoder writes its message to the file just created. *)
Definition encoderEncode (name : string) (v : list ChannelImportStatus)
    (w : World T) : error * World T :=
  match writeErr (disk w) with
  | Some e => (Some e, w)
  | None =>
      (None,
       emit (FileWrite name (gobEncode v))
         (setDisk {| files := <[name := gobEncode v]> (files (disk w));
                     createErr := createErr (disk w);
                     writeErr := writeErr (disk w) |} w))
  end.

(** [mySubscriptions]: the callback appends every page to [channels]. *)
Definition mySubscriptions (parts : list string) (w : World T)
    : list (option youtube_Subscription) * error * World T :=
  let w := emit (ListCall parts) w in
  let channels :=
    fold_left (fun channels items => channels ++ items)
              (pages (sourceService w)) [] in
  (channels, listErr (sourceService w), w).

(** [writeStatusesToFile]. *)
Definition writeStatusesToFile (channelStatuses : list ChannelImportStatus)
    (w : World T) : error * World T :=
  match osCreate checkpointFile w with
  | (Some err, w) => (Some err, w)
  | (None, w) =>
      let w := println "Encoding channelStatuses to file" w in
      match encoderEncode checkpointFile channelStatuses w with
      | (Some err, w) => (Some err, w)
      | (None, w) => (None, w)
      end
  end.

(** [channelStatuses[index].Imported = true]. *)
Definition markImported (index : nat)
    (channelStatuses : list ChannelImportStatus) : list ChannelImportStatus :=
  alter (fun c => {| Channel := Channel c; Imported := true |})
        index channelStatuses.

(** The request built at the top of the loop body. *)
Definition channelToSubscribeTo (rid : youtube_ResourceId)
    : youtube_Subscription :=
  {| Snippet := Some
       {| Title := "";
          ResourceId := Some {| ChannelId := ChannelId rid;
                                Kind := "youtube#channel" |} |} |}.

(** The body of the loop of [main] for one [index, channelStatus]. *)
Definition loopBody (index : nat) (channelStatus : ChannelImportStatus)
    (channelStatuses : list ChannelImportStatus) (w : World T)
    : Flow * list ChannelImportStatus * World T :=
  match Channel channelStatus with
  | None => (NilDeref, channelStatuses, w)
  | Some channel =>
  match Snippet channel with
  | None => (NilDeref, channelStatuses, w)
  | Some snippet =>
  match ResourceId snippet with
  | None => (NilDeref, channelStatuses, w)
  | Some rid =>
      let w := printf ("Attempting to add channel #" +:+ fmtInt index
                       +:+ ": " +:+ Title snippet +:+ ": ") w in
      if Imported channelStatus then
        (Next, channelStatuses, printf ("already imported, skipping" +:+ newline) w)
      else
        let body := channelToSubscribeTo rid in
        let w := emit (InsertCall ["snippet"] body) w in
        let '(err, t) := Insert (targetService w) ["snippet"] body in
        let w := setTarget t w in
        match err with
        | None =>
            (Next, markImported index channelStatuses,
             printf ("successfully subscribed to channel" +:+ newline) w)
        | Some e =>
            if HasSuffix e "subscriptionDuplicate" then
              (Next, markImported index channelStatuses,
               printf ("previously subscribed, marking as imported ("
                       +:+ e +:+ ")" +:+ newline) w)
            else if HasSuffix e "quotaExceeded" then
              (Break, channelStatuses,
               printf (" quota exceeded, can't import any more today. Stopping"
                       +:+ newline) w)
            else
              (Next, channelStatuses,
               printf ("stopping with error: " +:+ e +:+ newline) w)
        end
  end end end.

(** [for index, channelStatus := range channelStatuses]: the length is
    fixed on entry, the element is read when its turn comes.  [n] counts
    the indices still to visit; the lookup cannot miss, because [index]
    stays below the length and no step changes the length. *)
Fixpoint rangeFrom (n index : nat)
    (channelStatuses : list ChannelImportStatus) (w : World T)
    : RunOutcome * list ChannelImportStatus * World T :=
  match n with
  | 0 => (Completed, channelStatuses, w)
  | S n' =>
      match channelStatuses !! index with
      | None => (Completed, channelStatuses, w)
      | Some channelStatus =>
          match loopBody index channelStatus channelStatuses w with
          | (Next, channelStatuses, w) =>
              rangeFrom n' (S index) channelStatuses w
          | (Break, channelStatuses, w) =>
              (HaltedOnQuota, channelStatuses, w)
          | (NilDeref, channelStatuses, w) =>
              (Crashed nilDerefMsg, channelStatuses, w)
          end
      end
  end.

(** Lines 203-241 of [main]. *)
Definition applyLoop (channelStatuses : list ChannelImportStatus)
    (w : World T) : RunOutcome * list ChannelImportStatus * World T :=
  rangeFrom (length channelStatuses) 0 channelStatuses w.

(** Lines 202-243 of [main]: the progress line, the loop and the final
    save, whose result is dropped. *)
Definition applyAndSave (channelStatuses : list ChannelImportStatus)
    (w : World T) : Exit * World T :=
  let w := printf ("Importing up to " +:+ fmtInt (length channelStatuses)
                   +:+ " unimported channels 1 by 1" +:+ newline) w in
  match applyLoop channelStatuses w with
  | (Crashed msg, _, w) => (Panic msg, w)
  | (_, channelStatuses, w) =>
      let '(_, w) := writeStatusesToFile channelStatuses w in
      (Returned, w)
  end.

(** Lines 173-200 of [main]: find the existing statuses or create new
    ones.  The error of [decoder.Decode] is not looked at. *)
Definition loadOrBuild (w : World T)
    : (list ChannelImportStatus + Exit) * World T :=
  let channelStatuses : list ChannelImportStatus := [] in
  match osOpen checkpointFile w with
  | inl file =>
      let w := println "Encoded file exists, decoding into channelStatuses" w in
      let '(channelStatuses, _) := gobDecode file in
      (inl channelStatuses, w)
  | inr _ =>
      let w := println "Encoded file doesnt exist, fetching subscriptions" w in
      let '(sourceChannels, err, w) :=
        mySubscriptions ["snippet"; "contentDetails"] w in
      match err with
      | Some e => (inr (Fatal ("Unable to list source channels: " +:+ e)), w)
      | None =>
          let w := println "Importing into array" w in
          let channelStatuses :=
            fold_left
              (fun channelStatuses channel =>
                 channelStatuses ++ [{| Channel := channel; Imported := false |}])
              sourceChannels channelStatuses in
          match writeStatusesToFile channelStatuses w with
          | (Some e, w) => (inr (Panic e), w)
          | (None, w) => (inl channelStatuses, w)
          end
      end
  end.

(** [main], once both services have been obtained. *)
Definition main (w : World T) : Exit * World T :=
  match loadOrBuild w with
  | (inr exit, w) => (exit, w)
  | (inl channelStatuses, w) => applyAndSave channelStatuses w
  end.

End Engine.

(** ** Observations on plans, clients and traces *)

(** The last character of a string, if it has one. *)
Fixpoint lastChar (s : string) : option ascii :=
  match s with
  | EmptyString => None
  | String c EmptyString => Some c
  | String _ s => lastChar s
  end.

(** The resource id that the loop body reaches through
    [channel.Snippet.ResourceId]; [None] when a pointer on the way is nil. *)
Definition itemRid (c : ChannelImportStatus) : option youtube_ResourceId :=
  match Channel c with
  | None => None
  | Some channel =>
      match Snippet channel with
      | None => None
      | Some snippet => ResourceId snippet
      end
  end.

(** An item as the enumerator delivers it when the snippet part is
    requested: no nil pointer on the path to the channel id. *)
Definition wellFormed (c : ChannelImportStatus) : bool :=
  match itemRid c with Some _ => true | None => false end.

(** The title the progress line shows for an item. *)
Definition itemTitle (c : ChannelImportStatus) : string :=
  match Channel c with
  | Some {| Snippet := Some snippet |} => Title snippet
  | _ => ""
  end.

(** The progress line printed before an item is looked at. *)
Definition attemptLine (index : nat) (c : ChannelImportStatus) : string :=
  "Attempting to add channel #" +:+ fmtInt index +:+ ": " +:+ itemTitle c +:+ ": ".

Definition setImported (c : ChannelImportStatus) : ChannelImportStatus :=
  {| Channel := Channel c; Imported := true |}.

(** The statuses built on a first run: every enumerated channel, in the
    order of the pages, not yet imported. *)
Definition freshPlan (src : SourceService) : list ChannelImportStatus :=
  (fun channel => {| Channel := channel; Imported := false |})
    <$> concat (pages src).

(** The events of a first run up to and including the first save. *)
Definition firstRunSetup (gobEncode : list ChannelImportStatus -> list byte)
    (src : SourceService) : list Event :=
  [Stdout ("Encoded file doesnt exist, fetching subscriptions" +:+ newline);
   ListCall ["snippet"; "contentDetails"];
   Stdout ("Importing into array" +:+ newline);
   Stdout ("Encoding channelStatuses to file" +:+ newline);
   FileWrite checkpointFile (gobEncode (freshPlan src))].

(** The items of a plan that are marked as imported, in plan order. *)
Definition importedItems (cs : list ChannelImportStatus)
    : list ChannelImportStatus :=
  filter (fun c => Imported c = true) cs.

(** The request bodies the loop builds for a list of items. *)
Fixpoint requests (cs : list ChannelImportStatus) : list youtube_Subscription :=
  match cs with
  | [] => []
  | c :: cs =>
      match itemRid c with
      | Some rid => channelToSubscribeTo rid :: requests cs
      | None => requests cs
      end
  end.

(** The bodies of the insert calls recorded in a trace. *)
Fixpoint insertCalls (evs : list Event) : list youtube_Subscription :=
  match evs with
  | [] => []
  | InsertCall _ body :: evs => body :: insertCalls evs
  | _ :: evs => insertCalls evs
  end.

(** The number of calls of the source enumerator recorded in a trace. *)
Fixpoint listCalls (evs : list Event) : nat :=
  match evs with
  | [] => 0
  | ListCall _ :: evs => S (listCalls evs)
  | _ :: evs => listCalls evs
  end.

(** The four ways the loop body reads the result of an insert call, in
    the order of its tests. *)
Inductive Response :=
| Success
| Duplicate
| QuotaExhausted
| OtherError.

Definition classify (err : error) : Response :=
  match err with
  | None => Success
  | Some e =>
      if HasSuffix e "subscriptionDuplicate" then Duplicate
      else if HasSuffix e "quotaExceeded" then QuotaExhausted
      else OtherError
  end.

Section Observers.
Context {T : Type}.
Variable Insert : T -> list string -> youtube_Subscription -> error * T.
Variable gobEncode : list ChannelImportStatus -> list byte.
Variable gobDecode : list byte -> list ChannelImportStatus * error.

(** The world in which the answer of the destination is read. *)
Definition afterCall (index : nat) (c : ChannelImportStatus)
    (rid : youtube_ResourceId) (t : T) (w : World T) : World T :=
  setTarget t
    (emit (InsertCall ["snippet"] (channelToSubscribeTo rid))
       (printf (attemptLine index c) w)).

(** The answers of the destination to a sequence of insert calls. *)
Fixpoint responses (t : T) (bodies : list youtube_Subscription) : list error :=
  match bodies with
  | [] => []
  | body :: bodies =>
      let '(err, t) := Insert t ["snippet"] body in
      err :: responses t bodies
  end.

(** Successive runs of the loop, each in a world of its own, the
    statuses handed from one run to the next. *)
Fixpoint runs (ws : list (World T)) (cs : list ChannelImportStatus)
    : list ChannelImportStatus :=
  match ws with
  | [] => cs
  | w :: ws => runs ws (applyLoop Insert cs w).1.2
  end.

(** One save followed by the load of the next invocation. *)
Definition saveThenLoad (cs : list ChannelImportStatus) (w : World T)
    : (list ChannelImportStatus + Exit) * World T :=
  let '(_, w) := writeStatusesToFile gobEncode cs w in
  loadOrBuild gobEncode gobDecode w.

(** [n] save / load cycles in a row. *)
Fixpoint cycles (n : nat) (cs : list ChannelImportStatus) (w : World T)
    : (list ChannelImportStatus + Exit) * World T :=
  match n with
  | 0 => (inl cs, w)
  | S n =>
      match saveThenLoad cs w with
      | (inl cs, w) => cycles n cs w
      | (inr exit, w) => (inr exit, w)
      end
  end.
End Observers.

(** ** Concrete destinations, a concrete codec and sample data *)

(** A destination that answers from a script, one entry per call. *)
Module Scripted.
Definition Insert (script : list error) (parts : list string)
    (body : youtube_Subscription) : error * list error :=
  match script with
  | [] => (None, [])
  | err :: script => (err, script)
  end.
End Scripted.

(** A destination account that holds a set of channel ids and reports
    the duplicate signature for a channel it is already subscribed to. *)
Module Account.
Definition duplicateErr : string :=
  "googleapi: Error 400: The subscription that you are trying to create already exists., subscriptionDuplicate".

Definition Insert (subs : gset string) (parts : list string)
    (body : youtube_Subscription) : error * gset string :=
  match Snippet body with
  | Some {| ResourceId := Some rid |} =>
      if decide (ChannelId rid ∈ subs) then (Some duplicateErr, subs)
      else (None, {[ ChannelId rid ]} ∪ subs)
  | _ => (Some "googleapi: Error 400: Required, required", subs)
  end.
End Account.

(** A small length-prefixed format that stands in for gob in the
    examples. *)
Module Demo.
Definition putLen (n : nat) : byte :=
  default x00 (Byte.of_nat (n mod 256)).

Definition putString (s : string) : list byte :=
  let bs := String.list_byte_of_string s in
  putLen (length bs) :: bs.

Definition getString (bs : list byte) : option (string * list byte) :=
  match bs with
  | [] => None
  | n :: rest =>
      if Nat.leb (Byte.to_nat n) (length rest)
      then Some (String.string_of_list_byte (take (Byte.to_nat n) rest),
                 drop (Byte.to_nat n) rest)
      else None
  end.

Definition putItem (c : ChannelImportStatus) : list byte :=
  match Channel c with
  | None => [x00]
  | Some {| Snippet := None |} => [x01]
  | Some {| Snippet := Some {| Title := t; ResourceId := None |} |} =>
      x02 :: putString t
  | Some {| Snippet := Some {| Title := t; ResourceId := Some r |} |} =>
      x03 :: putString t ++ putString (ChannelId r) ++ putString (Kind r)
  end ++ [if Imported c then x01 else x00].

Definition getBool (bs : list byte) : option (bool * list byte) :=
  match bs with
  | x00 :: rest => Some (false, rest)
  | x01 :: rest => Some (true, rest)
  | _ => None
  end.

Definition getChannel (bs : list byte)
    : option (option youtube_Subscription * list byte) :=
  match bs with
  | x00 :: rest => Some (None, rest)
  | x01 :: rest => Some (Some {| Snippet := None |}, rest)
  | x02 :: rest =>
      '(t, rest) ← getString rest;
      Some (Some {| Snippet := Some {| Title := t; ResourceId := None |} |}, rest)
  | x03 :: rest =>
      '(t, rest) ← getString rest;
      '(i, rest) ← getString rest;
      '(k, rest) ← getString rest;
      Some (Some {| Snippet := Some
                      {| Title := t;
                         ResourceId := Some {| ChannelId := i; Kind := k |} |} |},
            rest)
  | _ => None
  end.

Definition getItem (bs : list byte) : option (ChannelImportStatus * list byte) :=
  '(ch, rest) ← getChannel bs;
  '(b, rest) ← getBool rest;
  Some ({| Channel := ch; Imported := b |}, rest).

Definition encode (cs : list ChannelImportStatus) : list byte :=
  putLen (length cs) :: concat (map putItem cs).

Fixpoint getItems (n : nat) (bs : list byte) (acc : list ChannelImportStatus)
    : list ChannelImportStatus * error :=
  match n with
  | 0 => match bs with
         | [] => (acc, None)
         | _ => (acc, Some "extra data in buffer")
         end
  | S n =>
      match getItem bs with
      | Some (c, rest) => getItems n rest (acc ++ [c])
      | None => (acc, Some "unexpected EOF")
      end
  end.

Definition decode (bs : list byte) : list ChannelImportStatus * error :=
  match bs with
  | [] => ([], Some "EOF")
  | n :: rest => getItems (Byte.to_nat n) rest []
  end.

Definition quotaErr : string :=
  "googleapi: Error 403: The request cannot be completed because you have exceeded your quota., quotaExceeded".

Definition otherErr : string :=
  "googleapi: Error 404: The subscriber identified with the request cannot be found., subscriberNotFound".

Definition channel (id title : string) : option youtube_Subscription :=
  Some {| Snippet := Some
            {| Title := title;
               ResourceId := Some {| ChannelId := id; Kind := "youtube#channel" |} |} |}.

Definition item (id title : string) (imported : bool) : ChannelImportStatus :=
  {| Channel := channel id title; Imported := imported |}.

Definition plan3 : list ChannelImportStatus :=
  [item "UC-a" "Alpha" false; item "UC-b" "Beta" false; item "UC-c" "Gamma" false].

Definition okDisk (fs : gmap string (list byte)) : FileSystem :=
  {| files := fs; createErr := None; writeErr := None |}.

Definition noSource : SourceService := {| pages := []; listErr := None |}.

Definition world {T : Type} (d : FileSystem) (s : SourceService) (t : T)
    : World T :=
  {| disk := d; sourceService := s; targetService := t; trace := [] |}.

(** A plan met again after a first run: one item imported, one not. *)
Definition rerunPlan : list ChannelImportStatus :=
  [item "UC-a" "Alpha" true; item "UC-b" "Beta" false].

(** A destination account that already holds both channels. *)
Definition subsAB : gset string := {[ "UC-a"; "UC-b" ]}.

(** A source that lists three subscriptions on two pages. *)
Definition source3 : SourceService :=
  {| pages := [[channel "UC-a" "Alpha"];
               [channel "UC-b" "Beta"; channel "UC-c" "Gamma"]];
     listErr := None |}.

(** A disk on which the checkpoint exists and cannot be replaced. *)
Definition readOnlyDisk : FileSystem :=
  {| files := {[ checkpointFile := encode plan3 ]};
     createErr := Some "open importStatus.gob: permission denied";
     writeErr := None |}.

(** A disk on which the checkpoint exists and is empty. *)
Definition truncatedDisk : FileSystem :=
  okDisk {[ checkpointFile := [] ]}.
End Demo.

(** Two destinations that answer by channel alone: the quota signature
    for one channel, success for the others.  The first has no state,
    the second counts its calls. *)
Module Fixed.
Definition answerFor (body : youtube_Subscription) : error :=
  match Snippet body with
  | Some {| ResourceId := Some rid |} =>
      if String.eqb (ChannelId rid) "UC-b" then Some Demo.quotaErr else None
  | _ => Some Demo.otherErr
  end.

Definition Insert (t : unit) (parts : list string)
    (body : youtube_Subscription) : error * unit :=
  (answerFor body, t).

Definition CountingInsert (n : nat) (parts : list string)
    (body : youtube_Subscription) : error * nat :=
  (answerFor body, S n).
End Fixed.

(** ** The token cache

    [tokenCacheFile], [tokenFromFile], [saveToken], [getTokenFromWeb] and
    [getClient].  The token is opaque to the program; the JSON codec, the
    home directory, the path functions and the authorization exchange are
    outside the repository and appear as parameters.  A session holds the
    disk, the words still to be read from standard input, the codes sent
    to the exchange so far and what was printed or written. *)

Record Session := {
  sessionDisk : FileSystem;
  stdin : list string;
  exchanged : list string;
  output : list Event
}.

Section Auth.
Variable Token : Type.
Variable jsonEncode : Token -> list byte.

(** [json.NewDecoder(f).Decode(t)] on a fresh [&oauth2.Token{}]: the
    value left in [t] and the error. *)
Variable jsonDecode : list byte -> Token * error.

(** [user.Current()]: the home directory, or the error. *)
Variable currentUser : string + string.
Variable Join : string -> string -> string.
Variable QueryEscape : string -> string.

(** [config.AuthCodeURL("state-token", oauth2.AccessTypeOffline)]. *)
Variable authURL : string.

(** [config.Exchange(ctx, code)]: the token, or the error. *)
Variable Exchange : string -> Token + string.

(** The error of [fmt.Scan] when no word is left to read. *)
Variable scanErr : string.

Definition say (text : string) (s : Session) : Session :=
  {| sessionDisk := sessionDisk s; stdin := stdin s;
     exchanged := exchanged s; output := output s ++ [Stdout text] |}.

(** [tokenCacheFile]: the result of [os.MkdirAll] is not looked at. *)
Definition tokenCacheFile (name : string) : string * error :=
  match currentUser with
  | inr e => ("", Some e)
  | inl home =>
      let tokenCacheDir := Join home ".credentials" in
      (Join tokenCacheDir (QueryEscape (name +:+ ".json")), None)
  end.

(** [tokenFromFile]: [nil] and the error when the file cannot be opened,
    otherwise the token the decoder filled and the error of the decoder. *)
Definition tokenFromFile (file : string) (s : Session) : option Token * error :=
  match files (sessionDisk s) !! file with
  | None => (None, Some ("open " +:+ file +:+ ": no such file or directory"))
  | Some content =>
      let '(t, err) := jsonDecode content in
      (Some t, err)
  end.

(** [saveToken]: the error of [Encode] is not looked at. *)
Definition saveToken (file : string) (token : Token) (s : Session)
    : option Exit * Session :=
  let s := say ("Saving credential file to: " +:+ file +:+ newline) s in
  match createErr (sessionDisk s) with
  | Some e => (Some (Fatal ("Unable to cache oauth token: " +:+ e)), s)
  | None =>
      let content :=
        match writeErr (sessionDisk s) with
        | Some _ => []
        | None => jsonEncode token
        end in
      (None,
       {| sessionDisk :=
            {| files := <[file := content]> (files (sessionDisk s));
               createErr := createErr (sessionDisk s);
               writeErr := writeErr (sessionDisk s) |};
          stdin := stdin s; exchanged := exchanged s;
          output :=
            match writeErr (sessionDisk s) with
            | Some _ => output s
            | None => output s ++ [FileWrite file content]
            end |})
  end.

(** [getTokenFromWeb], for an account name without a percent sign (the
    name is pasted into the format string). *)
Definition getTokenFromWeb (name : string) (s : Session)
    : (Exit + Token) * Session :=
  let s :=
    say (name +:+ " account: Go to the following link in your browser then type the authorization code: "
         +:+ newline +:+ authURL +:+ newline) s in
  match stdin s with
  | [] => (inl (Fatal ("Unable to read authorization code " +:+ scanErr)), s)
  | code :: words =>
      let s :=
        {| sessionDisk := sessionDisk s; stdin := words;
           exchanged := exchanged s ++ [code]; output := output s |} in
      match Exchange code with
      | inr e => (inl (Fatal ("Unable to retrieve token from web " +:+ e)), s)
      | inl tok => (inr tok, s)
      end
  end.

(** [getClient]: the token pointer handed to [config.Client]. *)
Definition getClient (name : string) (s : Session)
    : (Exit + option Token) * Session :=
  match tokenCacheFile name with
  | (_, Some e) =>
      (inl (Fatal ("Unable to get path to cached credential file. " +:+ e)), s)
  | (cacheFile, None) =>
      match tokenFromFile cacheFile s with
      | (tok, None) => (inr tok, s)
      | (_, Some _) =>
          match getTokenFromWeb name s with
          | (inl exit, s) => (inl exit, s)
          | (inr tok, s) =>
              match saveToken cacheFile tok s with
              | (Some exit, s) => (inl exit, s)
              | (None, s) => (inr (Some tok), s)
              end
          end
      end
  end.
End Auth.

(** ** The older variant of [main]

    The second program of the file: the statuses live in a slice of
    length 100, the loop works on the copy that [range] hands it, and a
    failed save panics. *)

Definition zeroStatus : ChannelImportStatus :=
  {| Channel := None; Imported := false |}.

(** [make([]ChannelImportStatus, len, cap)]. *)
Definition makeStatuses (len cap : nat) : list ChannelImportStatus + string :=
  if Nat.ltb cap len then inr "runtime error: makeslice: cap out of range"
  else inl (replicate len zeroStatus).

(** [for index, channel := range sourceChannels
       { channelStatuses[index] = ChannelImportStatus{channel, false} }]. *)
Fixpoint legacyFill (index : nat)
    (sourceChannels : list (option youtube_Subscription))
    (channelStatuses : list ChannelImportStatus)
    : list ChannelImportStatus + string :=
  match sourceChannels with
  | [] => inl channelStatuses
  | channel :: sourceChannels =>
      if Nat.ltb index (length channelStatuses) then
        legacyFill (S index) sourceChannels
          (<[index := {| Channel := channel; Imported := false |}]> channelStatuses)
      else
        inr ("runtime error: index out of range [" +:+ fmtInt index
             +:+ "] with length " +:+ fmtInt (length channelStatuses))
  end.

Section Legacy.
Context {T : Type}.
Variable Insert : T -> list string -> youtube_Subscription -> error * T.
Variable gobEncode : list ChannelImportStatus -> list byte.

(** [decoder.Decode(&channelStatuses)] on the slice given: what it leaves
    in the slice, and the error. *)
Variable gobDecodeInto :
  list byte -> list ChannelImportStatus -> list ChannelImportStatus * error.

(** The body of the loop for one [channelStatus], the copy handed out by
    [range]: the copy as the body leaves it comes second, the slice
    third. *)
Definition legacyBody (channelStatus : ChannelImportStatus)
    (channelStatuses : list ChannelImportStatus) (w : World T)
    : Flow * ChannelImportStatus * list ChannelImportStatus * World T :=
  match Channel channelStatus with
  | None => (NilDeref, channelStatus, channelStatuses, w)
  | Some channel =>
  match Snippet channel with
  | None => (NilDeref, channelStatus, channelStatuses, w)
  | Some snippet =>
      if Imported channelStatus then
        (Next, channelStatus, channelStatuses,
         printf ("Channel " +:+ Title snippet +:+ " already imported, skipping"
                 +:+ newline) w)
      else
        let w := printf ("Adding channel " +:+ Title snippet +:+ newline) w in
        let w := emit (InsertCall ["snippet"; "contentDetails"] channel) w in
        let '(err, t) :=
          Insert (targetService w) ["snippet"; "contentDetails"] channel in
        let w := setTarget t w in
        match err with
        | None =>
            (Next, {| Channel := Channel channelStatus; Imported := true |},
             channelStatuses,
             printf ("Successfully subscribed to channel: " +:+ Title snippet) w)
        | Some e =>
            (Next, channelStatus, channelStatuses,
             printf ("Unable to add channel: " +:+ e +:+ newline) w)
        end
  end end.

(** [for _, channelStatus := range channelStatuses]. *)
Fixpoint legacyRange (n index : nat)
    (channelStatuses : list ChannelImportStatus) (w : World T)
    : RunOutcome * list ChannelImportStatus * World T :=
  match n with
  | 0 => (Completed, channelStatuses, w)
  | S n' =>
      match channelStatuses !! index with
      | None => (Completed, channelStatuses, w)
      | Some channelStatus =>
          match legacyBody channelStatus channelStatuses w with
          | (NilDeref, _, channelStatuses, w) =>
              (Crashed nilDerefMsg, channelStatuses, w)
          | (_, _, channelStatuses, w) =>
              legacyRange n' (S index) channelStatuses w
          end
      end
  end.

(** The save at the end of the older [main]: both errors panic. *)
Definition legacySave (channelStatuses : list ChannelImportStatus)
    (w : World T) : Exit * World T :=
  match osCreate checkpointFile w with
  | (Some err, w) => (Panic err, w)
  | (None, w) =>
      match encoderEncode gobEncode checkpointFile channelStatuses w with
      | (Some err, w) => (Panic err, w)
      | (None, w) => (Returned, w)
      end
  end.

(** The loop and the save of the older [main]. *)
Definition legacyApplyAndSave (channelStatuses : list ChannelImportStatus)
    (w : World T) : Exit * World T :=
  match legacyRange (length channelStatuses) 0 channelStatuses w with
  | (Crashed msg, _, w) => (Panic msg, w)
  | (_, channelStatuses, w) => legacySave channelStatuses w
  end.

(** The older [main], once both services have been obtained. *)
Definition legacyMain (w : World T) : Exit * World T :=
  match osOpen checkpointFile w with
  | inl file =>
      let w := println "Encoded file exists, decoding into channelStatuses" w in
      match makeStatuses 100 250 with
      | inr msg => (Panic msg, w)
      | inl channelStatuses =>
          let '(channelStatuses, _) := gobDecodeInto file channelStatuses in
          legacyApplyAndSave channelStatuses w
      end
  | inr _ =>
      let w := println "Encoded file doesnt exist, fetching subscriptions" w in
      let '(sourceChannels, err, w) :=
        mySubscriptions ["snippet"; "contentDetails"] w in
      match err with
      | Some e => (Fatal ("Unable to list source channels: " +:+ e), w)
      | None =>
          match makeStatuses 100 (length sourceChannels) with
          | inr msg => (Panic msg, w)
          | inl channelStatuses =>
              match legacyFill 0 sourceChannels channelStatuses with
              | inr msg => (Panic msg, w)
              | inl channelStatuses => legacyApplyAndSave channelStatuses w
              end
          end
      end
  end.
End Legacy.

(** An item the older loop can print: channel and snippet are there. *)
Definition hasSnippet (c : ChannelImportStatus) : bool :=
  match Channel c with
  | Some {| Snippet := Some _ |} => true
  | _ => false
  end.

(** The insert requests of the older loop: the channels of the pending
    items, as they are. *)
Definition legacyRequests (cs : list ChannelImportStatus)
    : list youtube_Subscription :=
  omap Channel (filter (fun c => Imported c = false) cs).

(** A token store and an exchange for the examples: tokens are strings,
    written as their bytes; an empty file does not decode; one code is
    good. *)
Module DemoAuth.
Definition encode (tok : string) : list byte := String.list_byte_of_string tok.

Definition decode (bs : list byte) : string * error :=
  match bs with
  | [] => ("", Some "EOF")
  | _ => (String.string_of_list_byte bs, None)
  end.

Definition user : string + string := inl "/home/me".

Definition Join (dir file : string) : string := dir +:+ "/" +:+ file.

Definition QueryEscape (s : string) : string := s.

Definition authURL : string := "https://accounts.example/o/oauth2/auth".

Definition Exchange (code : string) : string + string :=
  if String.eqb code "4/good" then inl "ya29.token"
  else if String.eqb code "4/also-good" then inl "ya29.second"
  else inr "oauth2: cannot fetch token: 400 Bad Request".

Definition cachePath : string := "/home/me/.credentials/source.json".

Definition session (fs : gmap string (list byte)) (werr : error)
    (words : list string) : Session :=
  {| sessionDisk := {| files := fs; createErr := None; writeErr := werr |};
     stdin := words; exchanged := []; output := [] |}.
End DemoAuth.

(** More sample data: a plan with an item that has no snippet, a source
    whose listing fails after one page, sources of one hundred and of
    three channels for the older variant, and a decoder into a given
    slice that leaves the slice alone when the content is rejected. *)
Module Samples.
Definition brokenPlan : list ChannelImportStatus :=
  [Demo.item "UC-a" "Alpha" false;
   {| Channel := Some {| Snippet := None |}; Imported := false |};
   Demo.item "UC-c" "Gamma" false].

Definition failingSource : SourceService :=
  {| pages := [[Demo.channel "UC-a" "Alpha"]];
     listErr := Some "googleapi: Error 403: Forbidden, forbidden" |}.

Definition source100 : SourceService :=
  {| pages := [replicate 60 (Demo.channel "UC-x" "Xi");
               replicate 40 (Demo.channel "UC-y" "Upsilon")];
     listErr := None |}.

Definition finishedPlan : list ChannelImportStatus :=
  [Demo.item "UC-a" "Alpha" true; Demo.item "UC-b" "Beta" true;
   Demo.item "UC-c" "Gamma" true].

Definition decodeInto (bs : list byte) (cs : list ChannelImportStatus)
    : list ChannelImportStatus * error :=
  match Demo.decode bs with
  | (decoded, None) => (decoded, None)
  | (_, Some e) => (cs, Some e)
  end.


End Samples.

(** The line the loop prints when it stops on the exhausted quota. *)
Definition quotaLine : string :=
  " quota exceeded, can't import any more today. Stopping" +:+ newline.

(** ** Facts about the string tests *)

Lemma substring_all (s : string) :
  String.substring 0 (String.length s) s = s.
Proof.
  induction s as [|a s IH]; simpl; [reflexivity|]. now rewrite IH.
Qed.

Lemma append_cons (a : ascii) (s t : string) :
  String a s +:+ t = String a (s +:+ t).
Proof. reflexivity. Qed.

Lemma substring_split (s : string) :
  forall n m, n + m = String.length s ->
    s = String.substring 0 n s +:+ String.substring n m s.
Proof.
  induction s as [|a s IH]; intros n m Hlen; simpl in Hlen.
  - assert (n = 0) by lia. assert (m = 0) by lia. subst. reflexivity.
  - destruct n as [|n].
    + simpl in Hlen. subst m. simpl. now rewrite substring_all.
    + cbn [String.substring]. rewrite append_cons. f_equal. apply IH. lia.
Qed.

(** A string that passes [HasSuffix] ends with the suffix. *)
Lemma HasSuffix_split (s suffix : string) :
  HasSuffix s suffix = true -> exists p, s = p +:+ suffix.
Proof.
  unfold HasSuffix. intros H.
  apply andb_prop in H as [Hle Heq].
  apply Nat.leb_le in Hle. apply String.eqb_eq in Heq.
  exists (String.substring 0 (String.length s - String.length suffix) s).
  pose proof (substring_split s (String.length s - String.length suffix)
                (String.length suffix)) as Hsplit.
  rewrite Heq in Hsplit. apply Hsplit. lia.
Qed.

Lemma lastChar_app (p s : string) :
  s <> EmptyString -> lastChar (p +:+ s) = lastChar s.
Proof.
  intros Hs. induction p as [|a p IH]; [reflexivity|].
  rewrite append_cons. cbn [lastChar]. destruct (p +:+ s) eqn:E.
  - destruct p; [change (s = EmptyString) in E; congruence|].
    rewrite append_cons in E. discriminate.
  - exact IH.
Qed.

(** The two signatures that the loop body looks for end in different
    letters, so at most one of its two tests succeeds. *)
Lemma quota_not_duplicate (e : string) :
  HasSuffix e "quotaExceeded" = true ->
  HasSuffix e "subscriptionDuplicate" = false.
Proof.
  intros Hq. destruct (HasSuffix e "subscriptionDuplicate") eqn:Hd; [|reflexivity].
  apply HasSuffix_split in Hq as [p Hp].
  apply HasSuffix_split in Hd as [q Hq].
  assert (H : lastChar (p +:+ "quotaExceeded") = lastChar (q +:+ "subscriptionDuplicate"))
    by congruence.
  rewrite !lastChar_app in H by discriminate.
  vm_compute in H. discriminate.
Qed.

(** ** Facts about one execution of the loop body *)

Section BodyFacts.
Context {T : Type}.
Variable Insert : T -> list string -> youtube_Subscription -> error * T.

Ltac open_item c H :=
  unfold loopBody, afterCall, attemptLine, itemTitle; unfold itemRid in H;
  destruct (Channel c) as [[[[? ?]|]]|]; try discriminate H;
  cbn [Snippet ResourceId Title] in *.

(** An item already imported is skipped: two lines are printed and
    nothing else happens. *)
Lemma loopBody_skip index c cs (w : World T) rid :
  itemRid c = Some rid -> Imported c = true ->
  loopBody Insert index c cs w =
    (Next, cs,
     printf ("already imported, skipping" +:+ newline)
       (printf (attemptLine index c) w)).
Proof.
  intros Hrid Himp. open_item c Hrid. simplify_eq.
  now rewrite Himp.
Qed.

Lemma loopBody_success index c cs (w : World T) rid t :
  itemRid c = Some rid -> Imported c = false ->
  Insert (targetService w) ["snippet"] (channelToSubscribeTo rid) = (None, t) ->
  loopBody Insert index c cs w =
    (Next, markImported index cs,
     printf ("successfully subscribed to channel" +:+ newline)
       (afterCall index c rid t w)).
Proof.
  intros Hrid Himp Hins. open_item c Hrid. simplify_eq.
  rewrite Himp. cbn [emit printf targetService]. now rewrite Hins.
Qed.

Lemma loopBody_duplicate index c cs (w : World T) rid e t :
  itemRid c = Some rid -> Imported c = false ->
  Insert (targetService w) ["snippet"] (channelToSubscribeTo rid) = (Some e, t) ->
  HasSuffix e "subscriptionDuplicate" = true ->
  loopBody Insert index c cs w =
    (Next, markImported index cs,
     printf ("previously subscribed, marking as imported ("
             +:+ e +:+ ")" +:+ newline)
       (afterCall index c rid t w)).
Proof.
  intros Hrid Himp Hins Hdup. open_item c Hrid. simplify_eq.
  rewrite Himp. cbn [emit printf targetService]. rewrite Hins.
  now rewrite Hdup.
Qed.

Lemma loopBody_quota index c cs (w : World T) rid e t :
  itemRid c = Some rid -> Imported c = false ->
  Insert (targetService w) ["snippet"] (channelToSubscribeTo rid) = (Some e, t) ->
  HasSuffix e "quotaExceeded" = true ->
  loopBody Insert index c cs w =
    (Break, cs,
     printf (" quota exceeded, can't import any more today. Stopping"
             +:+ newline)
       (afterCall index c rid t w)).
Proof.
  intros Hrid Himp Hins Hq. open_item c Hrid. simplify_eq.
  rewrite Himp. cbn [emit printf targetService]. rewrite Hins.
  now rewrite (quota_not_duplicate _ Hq), Hq.
Qed.

Lemma loopBody_other index c cs (w : World T) rid e t :
  itemRid c = Some rid -> Imported c = false ->
  Insert (targetService w) ["snippet"] (channelToSubscribeTo rid) = (Some e, t) ->
  HasSuffix e "subscriptionDuplicate" = false ->
  HasSuffix e "quotaExceeded" = false ->
  loopBody Insert index c cs w =
    (Next, cs,
     printf ("stopping with error: " +:+ e +:+ newline)
       (afterCall index c rid t w)).
Proof.
  intros Hrid Himp Hins Hdup Hq. open_item c Hrid. simplify_eq.
  rewrite Himp. cbn [emit printf targetService]. rewrite Hins.
  now rewrite Hdup, Hq.
Qed.

Lemma loopBody_nil index c cs (w : World T) :
  itemRid c = None ->
  loopBody Insert index c cs w = (NilDeref, cs, w).
Proof.
  intros Hrid. unfold loopBody. unfold itemRid in Hrid.
  destruct (Channel c) as [[[[? [?|]]|]]|]; try discriminate Hrid; reflexivity.
Qed.
End BodyFacts.

(** Splits the goal along the six ways the body can go for the item [c]
    and rewrites the call of [loopBody] accordingly. *)
Ltac body_cases Insert index c cs w :=
  let rid := fresh "rid" in
  let Hrid := fresh "Hrid" in
  let Himp := fresh "Himp" in
  let e := fresh "e" in
  let t := fresh "t" in
  let Hins := fresh "Hins" in
  let Hdup := fresh "Hdup" in
  let Hq := fresh "Hq" in
  destruct (itemRid c) as [rid|] eqn:Hrid;
  [ destruct (Imported c) eqn:Himp;
    [ rewrite (loopBody_skip Insert index c cs w rid Hrid Himp)
    | destruct (Insert (targetService w) ["snippet"] (channelToSubscribeTo rid))
        as [[e|] t] eqn:Hins;
      [ destruct (HasSuffix e "subscriptionDuplicate") eqn:Hdup;
        [ rewrite (loopBody_duplicate Insert index c cs w rid e t Hrid Himp Hins Hdup)
        | destruct (HasSuffix e "quotaExceeded") eqn:Hq;
          [ rewrite (loopBody_quota Insert index c cs w rid e t Hrid Himp Hins Hq)
          | rewrite (loopBody_other Insert index c cs w rid e t Hrid Himp Hins Hdup Hq) ] ]
      | rewrite (loopBody_success Insert index c cs w rid t Hrid Himp Hins) ] ]
  | rewrite (loopBody_nil Insert index c cs w Hrid) ].

(** ** Facts about the loop *)

Lemma setImported_id (c : ChannelImportStatus) :
  Imported c = true -> setImported c = c.
Proof. destruct c as [ch i]. simpl. intros ->. reflexivity. Qed.

Lemma markImported_middle (done rest : list ChannelImportStatus) c :
  markImported (length done) (done ++ c :: rest) = done ++ setImported c :: rest.
Proof.
  unfold markImported. rewrite alter_app_r_alt by lia.
  now rewrite Nat.sub_diag.
Qed.

Lemma markImported_length index (cs : list ChannelImportStatus) :
  length (markImported index cs) = length cs.
Proof. unfold markImported. apply length_alter. Qed.

Lemma markImported_keeps index (cs : list ChannelImportStatus) j x :
  cs !! j = Some x -> Imported x = true -> markImported index cs !! j = Some x.
Proof.
  intros Hj Hx. unfold markImported.
  destruct (decide (index = j)) as [->|Hne].
  - rewrite list_lookup_alter_eq, Hj. simpl. f_equal.
    now apply (setImported_id x).
  - now rewrite list_lookup_alter_ne.
Qed.

Section LoopFacts.
Context {T : Type}.
Variable Insert : T -> list string -> youtube_Subscription -> error * T.

Lemma loopBody_keeps index c cs (w : World T) j x :
  cs !! j = Some x -> Imported x = true ->
  (loopBody Insert index c cs w).1.2 !! j = Some x.
Proof.
  intros Hj Hx.
  body_cases Insert index c cs w; cbn [fst snd];
    auto using markImported_keeps.
Qed.

Lemma loopBody_length index c cs (w : World T) :
  length (loopBody Insert index c cs w).1.2 = length cs.
Proof.
  body_cases Insert index c cs w; cbn [fst snd];
    auto using markImported_length.
Qed.

Lemma rangeFrom_keeps n :
  forall index cs (w : World T) j x,
    cs !! j = Some x -> Imported x = true ->
    (rangeFrom Insert n index cs w).1.2 !! j = Some x.
Proof.
  induction n as [|n IH]; intros index cs w j x Hj Hx; cbn [rangeFrom]; [exact Hj|].
  destruct (cs !! index) as [c|]; [|exact Hj].
  pose proof (loopBody_keeps index c cs w j x Hj Hx) as Hstep.
  destruct (loopBody Insert index c cs w) as [[[] cs'] w']; cbn [fst snd] in *.
  - now apply IH.
  - exact Hstep.
  - exact Hstep.
Qed.

Lemma rangeFrom_length n :
  forall index cs (w : World T),
    length (rangeFrom Insert n index cs w).1.2 = length cs.
Proof.
  induction n as [|n IH]; intros index cs w; cbn [rangeFrom]; [reflexivity|].
  destruct (cs !! index) as [c|]; [|reflexivity].
  pose proof (loopBody_length index c cs w) as Hstep.
  destruct (loopBody Insert index c cs w) as [[[] cs'] w']; cbn [fst snd] in *;
    [rewrite IH|..]; exact Hstep.
Qed.

Lemma runs_keeps (ws : list (World T)) :
  forall cs j x,
    cs !! j = Some x -> Imported x = true ->
    runs Insert ws cs !! j = Some x.
Proof.
  induction ws as [|w ws IH]; intros cs j x Hj Hx; cbn [runs]; [exact Hj|].
  apply IH; [|exact Hx]. unfold applyLoop. now apply rangeFrom_keeps.
Qed.

Lemma runs_length (ws : list (World T)) :
  forall cs, length (runs Insert ws cs) = length cs.
Proof.
  induction ws as [|w ws IH]; intros cs; cbn [runs]; [reflexivity|].
  rewrite IH. unfold applyLoop. apply rangeFrom_length.
Qed.

Lemma rangeFrom_middle (done rest : list ChannelImportStatus) c (w : World T) :
  rangeFrom Insert (S (length rest)) (length done) (done ++ c :: rest) w =
  match loopBody Insert (length done) c (done ++ c :: rest) w with
  | (Next, cs, w) => rangeFrom Insert (length rest) (S (length done)) cs w
  | (Break, cs, w) => (HaltedOnQuota, cs, w)
  | (NilDeref, cs, w) => (Crashed nilDerefMsg, cs, w)
  end.
Proof. cbn [rangeFrom]. now rewrite list_lookup_middle. Qed.

(** Moving one item from the part still to do to the part done. *)
Lemma rangeFrom_shift (done rest : list ChannelImportStatus) c (w : World T) :
  rangeFrom Insert (length rest) (S (length done)) (done ++ c :: rest) w =
  rangeFrom Insert (length rest) (length (done ++ [c])) ((done ++ [c]) ++ rest) w.
Proof.
  rewrite length_app, Nat.add_1_r, <- app_assoc. reflexivity.
Qed.

(** The body leaves the disk and the source alone and only prints or
    calls the destination. *)
Lemma loopBody_frame index c cs (w : World T) :
  exists evs,
    trace (loopBody Insert index c cs w).2 = trace w ++ evs /\
    listCalls evs = 0 /\
    disk (loopBody Insert index c cs w).2 = disk w /\
    sourceService (loopBody Insert index c cs w).2 = sourceService w.
Proof.
  body_cases Insert index c cs w;
    cbn [fst snd trace disk sourceService printf emit setTarget afterCall];
    [..|exists []; now rewrite app_nil_r];
    rewrite <- ?app_assoc; eexists; (split; [reflexivity|]);
    repeat split; reflexivity.
Qed.

Lemma rangeFrom_frame n :
  forall index cs (w : World T),
  exists evs,
    trace (rangeFrom Insert n index cs w).2 = trace w ++ evs /\
    listCalls evs = 0 /\
    disk (rangeFrom Insert n index cs w).2 = disk w /\
    sourceService (rangeFrom Insert n index cs w).2 = sourceService w.
Proof.
  induction n as [|n IH]; intros index cs w; cbn [rangeFrom].
  - exists []. now rewrite app_nil_r.
  - destruct (cs !! index) as [c|]; [|exists []; now rewrite app_nil_r].
    destruct (loopBody_frame index c cs w) as (evs & Htr & Hl & Hd & Hs).
    destruct (loopBody Insert index c cs w) as [[[] cs'] w']; cbn [fst snd] in *;
      try (exists evs; repeat split; assumption).
    destruct (IH (S index) cs' w') as (evs' & Htr' & Hl' & Hd' & Hs').
    exists (evs ++ evs'). rewrite Htr', Htr, Hd', Hs', <- app_assoc.
    repeat split; try assumption.
    clear -Hl Hl'. induction evs as [|[] evs IHe]; cbn in *; auto; discriminate.
Qed.

(** C2.  No regression: an item that is Imported keeps its place, its
    channel and its status through one execution of the loop body,
    through a whole run of the loop and through any sequence of runs,
    whatever the destination answers; the number of items never
    changes either. *)
Theorem imported_never_reverts :
  forall (cs : list ChannelImportStatus) (j : nat) (x : ChannelImportStatus),
    cs !! j = Some x -> Imported x = true ->
    (forall index c (w : World T),
        (loopBody Insert index c cs w).1.2 !! j = Some x) /\
    (forall w : World T, (applyLoop Insert cs w).1.2 !! j = Some x) /\
    (forall ws : list (World T),
        runs Insert ws cs !! j = Some x /\
        length (runs Insert ws cs) = length cs).
Proof.
  intros cs j x Hj Hx. repeat split.
  - intros. now apply loopBody_keeps.
  - intros. unfold applyLoop. now apply rangeFrom_keeps.
  - now apply runs_keeps.
  - apply runs_length.
Qed.
End LoopFacts.

(** ** Facts about a whole run *)

Section RunFacts.
Context {T : Type}.
Variable Insert : T -> list string -> youtube_Subscription -> error * T.
Variable gobEncode : list ChannelImportStatus -> list byte.

(** A save on a disk that accepts it. *)
Lemma writeStatusesToFile_ok cs (w : World T) :
  createErr (disk w) = None -> writeErr (disk w) = None ->
  exists w',
    writeStatusesToFile gobEncode cs w = (None, w') /\
    files (disk w') !! checkpointFile = Some (gobEncode cs) /\
    trace w' = trace w ++
      [Stdout ("Encoding channelStatuses to file" +:+ newline);
       FileWrite checkpointFile (gobEncode cs)] /\
    createErr (disk w') = None /\ writeErr (disk w') = None /\
    targetService w' = targetService w /\
    sourceService w' = sourceService w.
Proof.
  intros Hc Hw. unfold writeStatusesToFile, osCreate. rewrite Hc.
  unfold encoderEncode. cbn [disk setDisk println printf emit writeErr].
  rewrite Hw. eexists. split; [reflexivity|].
  cbn [disk setDisk println printf emit files trace createErr writeErr
       targetService sourceService].
  rewrite lookup_insert_eq, <- app_assoc. repeat split; reflexivity.
Qed.

(** The loop on a plan whose first [k] pending items are accepted and
    whose next one meets the exhausted quota. *)
Lemma rangeFrom_quota k :
  forall (rest done : list ChannelImportStatus) (w : World T) e,
    Forall (fun c => wellFormed c = true /\ Imported c = false) rest ->
    k < length rest ->
    responses Insert (targetService w) (requests (take (S k) rest))
      = replicate k None ++ [Some e] ->
    HasSuffix e "quotaExceeded" = true ->
    exists w',
      rangeFrom Insert (length rest) (length done) (done ++ rest) w =
        (HaltedOnQuota,
         done ++ (setImported <$> take k rest) ++ drop k rest, w').
Proof.
  induction k as [|k IH]; intros rest done w e Hall Hk Hresp Hq;
    (destruct rest as [|c rest]; [cbn in Hk; lia|]);
    apply Forall_cons in Hall as [[Hwf Himp] Hall];
    unfold wellFormed in Hwf;
    (destruct (itemRid c) as [rid|] eqn:Hrid; [|discriminate]);
    cbn [take requests] in Hresp; rewrite Hrid in Hresp;
    cbn [responses] in Hresp;
    destruct (Insert (targetService w) ["snippet"] (channelToSubscribeTo rid))
      as [err t] eqn:Hins;
    cbn [length]; rewrite rangeFrom_middle.
  - cbn in Hresp. assert (err = Some e) by congruence. subst err.
    rewrite (loopBody_quota Insert _ c _ w rid e t Hrid Himp Hins Hq).
    eexists. reflexivity.
  - cbn [replicate app] in Hresp.
    assert (err = None) by congruence. subst err.
    assert (Htail : responses Insert t (requests (take (S k) rest))
                    = replicate k None ++ [Some e]) by congruence.
    rewrite (loopBody_success Insert _ c _ w rid t Hrid Himp Hins).
    rewrite markImported_middle, rangeFrom_shift.
    set (w1 := printf _ _).
    destruct (IH rest (done ++ [setImported c]) w1 e Hall) as [w' Hw'];
      [cbn in Hk; lia | exact Htail | exact Hq |].
    rewrite Hw'. exists w'. cbn [take drop fmap list_fmap].
    now rewrite <- app_assoc.
Qed.

(** C1.  Quota halt preserves progress: on a plan of pending items
    for which the destination accepts the first [k] inserts and answers
    the next one with the quota signature, the loop stops with
    [HaltedOnQuota], exactly the first [k] items are Imported and all
    the others are still Pending and otherwise untouched; the run then
    hands this very state to [writeStatusesToFile] and returns, and on a
    disk that accepts the write the checkpoint file holds its
    encoding. *)
Theorem quota_halt_preserves_progress :
  forall (cs : list ChannelImportStatus) (w : World T) (k : nat) (e : string),
    Forall (fun c => wellFormed c = true /\ Imported c = false) cs ->
    k < length cs ->
    responses Insert (targetService w) (requests (take (S k) cs))
      = replicate k None ++ [Some e] ->
    HasSuffix e "quotaExceeded" = true ->
    let start :=
      printf ("Importing up to " +:+ fmtInt (length cs)
              +:+ " unimported channels 1 by 1" +:+ newline) w in
    let cs' := (setImported <$> take k cs) ++ drop k cs in
    exists w',
      applyLoop Insert cs start = (HaltedOnQuota, cs', w') /\
      length cs' = length cs /\
      (forall i x, cs' !! i = Some x -> Imported x = bool_decide (i < k)) /\
      Channel <$> cs' = Channel <$> cs /\
      applyAndSave Insert gobEncode cs w =
        (Returned, (writeStatusesToFile gobEncode cs' w').2) /\
      (createErr (disk w) = None -> writeErr (disk w) = None ->
       files (disk (applyAndSave Insert gobEncode cs w).2) !! checkpointFile
         = Some (gobEncode cs')).
Proof.
  intros cs w k e Hall Hk Hresp Hq start cs'.
  destruct (rangeFrom_quota k cs [] start e Hall Hk Hresp Hq) as [w' Hloop].
  cbn [app length] in Hloop. fold cs' in Hloop.
  assert (Happly : applyLoop Insert cs start = (HaltedOnQuota, cs', w'))
    by exact Hloop.
  assert (Hframe : disk w' = disk w).
  { destruct (rangeFrom_frame Insert (length cs) 0 cs start)
      as (evs & _ & _ & Hd & _).
    unfold applyLoop in Happly. rewrite Happly in Hd. exact Hd. }
  exists w'. split; [exact Happly|]. split.
  { unfold cs'. rewrite length_app, length_fmap, length_take, length_drop. lia. }
  split.
  { intros i x Hi. unfold cs' in Hi.
    apply lookup_app_Some in Hi as [Hi|[Hge Hi]].
    - apply list_lookup_fmap_Some in Hi as (y & -> & Hy).
      apply lookup_take_Some in Hy as [_ Hlt].
      cbn. now rewrite bool_decide_eq_true_2.
    - rewrite length_fmap, length_take in Hge.
      rewrite lookup_drop in Hi.
      rewrite Forall_lookup in Hall.
      destruct (Hall _ _ Hi) as [_ ->].
      rewrite bool_decide_eq_false_2; [reflexivity|lia]. }
  split.
  { unfold cs'. rewrite fmap_app, <- list_fmap_compose.
    rewrite <- (take_drop k cs) at 3. rewrite fmap_app. reflexivity. }
  assert (Hrun : applyAndSave Insert gobEncode cs w =
                 (Returned, (writeStatusesToFile gobEncode cs' w').2)).
  { unfold applyAndSave. fold start. rewrite Happly.
    now destruct (writeStatusesToFile gobEncode cs' w'). }
  split; [exact Hrun|].
  intros Hc Hw. rewrite Hrun. rewrite <- Hframe in Hc, Hw.
  destruct (writeStatusesToFile_ok cs' w' Hc Hw) as (w'' & Hsave & Hfile & _).
  now rewrite Hsave.
Qed.
Lemma markImported_ne index (cs : list ChannelImportStatus) j :
  j <> index -> markImported index cs !! j = cs !! j.
Proof. intros Hne. unfold markImported. now rewrite list_lookup_alter_ne. Qed.

Lemma markImported_wellFormed index (cs : list ChannelImportStatus) :
  Forall (fun c => wellFormed c = true) cs ->
  Forall (fun c => wellFormed c = true) (markImported index cs).
Proof.
  intros Hall. unfold markImported. apply Forall_alter; [exact Hall|].
  intros c _ Hc. exact Hc.
Qed.

(** What the body does to the statuses and to the loop depends on the
    answer of the destination only through its classification. *)
Lemma loopBody_classified index c cs (w : World T) rid err t :
  itemRid c = Some rid -> Imported c = false ->
  Insert (targetService w) ["snippet"] (channelToSubscribeTo rid) = (err, t) ->
  (loopBody Insert index c cs w).1 =
    match classify err with
    | Success | Duplicate => (Next, markImported index cs)
    | QuotaExhausted => (Break, cs)
    | OtherError => (Next, cs)
    end.
Proof.
  intros Hrid Himp Hins. unfold classify. destruct err as [e|].
  - destruct (HasSuffix e "subscriptionDuplicate") eqn:Hdup.
    + now rewrite (loopBody_duplicate Insert _ c _ w rid e t).
    + destruct (HasSuffix e "quotaExceeded") eqn:Hq.
      * now rewrite (loopBody_quota Insert _ c _ w rid e t).
      * now rewrite (loopBody_other Insert _ c _ w rid e t).
  - now rewrite (loopBody_success Insert _ c _ w rid t).
Qed.

(** On well-formed items the loop never dereferences a nil pointer. *)
Lemma rangeFrom_no_crash n :
  forall index cs (w : World T),
    Forall (fun c => wellFormed c = true) cs ->
    forall msg, (rangeFrom Insert n index cs w).1.1 <> Crashed msg.
Proof.
  induction n as [|n IH]; intros index cs w Hall msg; cbn [rangeFrom];
    [discriminate|].
  destruct (cs !! index) as [c|] eqn:Hc; [|discriminate].
  assert (Hwf : wellFormed c = true)
    by (rewrite Forall_lookup in Hall; exact (Hall _ _ Hc)).
  unfold wellFormed in Hwf.
  body_cases Insert index c cs w; try discriminate;
    auto using markImported_wellFormed.
Qed.

Lemma applyAndSave_returns cs (w : World T) :
  Forall (fun c => wellFormed c = true) cs ->
  (applyAndSave Insert gobEncode cs w).1 = Returned.
Proof.
  intros Hall. unfold applyAndSave, applyLoop.
  set (start := printf _ w).
  pose proof (rangeFrom_no_crash (length cs) 0 cs start Hall) as Hno.
  destruct (rangeFrom Insert (length cs) 0 cs start) as [[[] cs'] w'];
    cbn [fst snd] in *.
  - now destruct (writeStatusesToFile gobEncode cs' w').
  - now destruct (writeStatusesToFile gobEncode cs' w').
  - now destruct (Hno msg).
Qed.

(** C5.  A pending item whose insert fails with the duplicate
    signature is treated as a success: the body marks exactly that item
    Imported, leaves every other item alone and lets the loop go on with
    the next index. *)
Theorem duplicate_marks_imported :
  forall (cs : list ChannelImportStatus) (w : World T) (index : nat)
         (c : ChannelImportStatus) (rid : youtube_ResourceId)
         (e : string) (t : T),
    cs !! index = Some c ->
    itemRid c = Some rid ->
    Imported c = false ->
    Insert (targetService w) ["snippet"] (channelToSubscribeTo rid) = (Some e, t) ->
    HasSuffix e "subscriptionDuplicate" = true ->
    let cs' := markImported index cs in
    exists w',
      loopBody Insert index c cs w = (Next, cs', w') /\
      cs' !! index = Some {| Channel := Channel c; Imported := true |} /\
      (forall j, j <> index -> cs' !! j = cs !! j) /\
      length cs' = length cs /\
      forall n, rangeFrom Insert (S n) index cs w
                = rangeFrom Insert n (S index) cs' w'.
Proof.
  intros cs w index c rid e t Hc Hrid Himp Hins Hdup cs'.
  pose proof (loopBody_duplicate Insert index c cs w rid e t Hrid Himp Hins Hdup)
    as Hbody.
  eexists. split; [exact Hbody|]. repeat split.
  - unfold cs', markImported. now rewrite list_lookup_alter_eq, Hc.
  - intros j Hj. now apply markImported_ne.
  - apply markImported_length.
  - intros n. cbn [rangeFrom]. now rewrite Hc, Hbody.
Qed.

(** C6.  A pending item whose insert fails with an error that carries
    neither signature stays as it is: the body prints the error, changes
    no status and lets the loop go on with the next index.  Whatever the
    destination answers, the run over a well-formed plan returns
    normally: no insert error ends the process. *)
Theorem other_error_is_skipped :
  forall (cs : list ChannelImportStatus) (w : World T) (index : nat)
         (c : ChannelImportStatus) (rid : youtube_ResourceId)
         (e : string) (t : T),
    cs !! index = Some c ->
    itemRid c = Some rid ->
    Imported c = false ->
    Insert (targetService w) ["snippet"] (channelToSubscribeTo rid) = (Some e, t) ->
    HasSuffix e "subscriptionDuplicate" = false ->
    HasSuffix e "quotaExceeded" = false ->
    exists w',
      loopBody Insert index c cs w = (Next, cs, w') /\
      trace w' = trace w ++
        [Stdout (attemptLine index c);
         InsertCall ["snippet"] (channelToSubscribeTo rid);
         Stdout ("stopping with error: " +:+ e +:+ newline)] /\
      (forall n, rangeFrom Insert (S n) index cs w
                 = rangeFrom Insert n (S index) cs w') /\
      (Forall (fun c => wellFormed c = true) cs ->
       forall w0 : World T, (applyAndSave Insert gobEncode cs w0).1 = Returned).
Proof.
  intros cs w index c rid e t Hc Hrid Himp Hins Hdup Hq.
  pose proof (loopBody_other Insert index c cs w rid e t Hrid Himp Hins Hdup Hq)
    as Hbody.
  eexists. split; [exact Hbody|]. repeat split.
  - cbn [trace printf emit setTarget afterCall].
    now rewrite <- !app_assoc.
  - intros n. cbn [rangeFrom]. now rewrite Hc, Hbody.
  - intros Hall w0. now apply applyAndSave_returns.
Qed.
Lemma insertCalls_app (evs1 evs2 : list Event) :
  insertCalls (evs1 ++ evs2) = insertCalls evs1 ++ insertCalls evs2.
Proof.
  induction evs1 as [|[] evs1 IH]; cbn [app insertCalls]; try exact IH.
  - reflexivity.
  - now rewrite IH.
Qed.

Lemma requests_cons c rid (cs : list ChannelImportStatus) :
  itemRid c = Some rid ->
  requests (c :: cs) = channelToSubscribeTo rid :: requests cs.
Proof. intros Hrid. cbn [requests]. now rewrite Hrid. Qed.

(** The insert calls of a run are issued for pending items only, in
    the order of the plan. *)
Lemma rangeFrom_calls (rest : list ChannelImportStatus) :
  forall (done : list ChannelImportStatus) (w : World T),
  exists evs,
    trace (rangeFrom Insert (length rest) (length done) (done ++ rest) w).2
      = trace w ++ evs /\
    insertCalls evs `prefix_of`
      requests (filter (fun c => Imported c = false) rest).
Proof.
  induction rest as [|c rest IH]; intros done w.
  { exists []. cbn. rewrite app_nil_r. split; [reflexivity|apply prefix_nil]. }
  cbn [length]. rewrite rangeFrom_middle.
  body_cases Insert (length done) c (done ++ c :: rest) w; cbv beta match;
    rewrite ?markImported_middle, ?rangeFrom_shift;
    try (rewrite filter_cons_True by assumption;
         rewrite (requests_cons c rid _ Hrid));
    try (rewrite filter_cons_False by (rewrite Himp; discriminate)).
  - set (w1 := printf _ _).
    destruct (IH (done ++ [c]) w1) as (evs & Htr & Hpre).
    exists ([Stdout (attemptLine (length done) c);
             Stdout ("already imported, skipping" +:+ newline)] ++ evs).
    split; [|exact Hpre]. rewrite Htr. subst w1.
    cbn [trace printf emit]. now rewrite <- !app_assoc.
  - set (w1 := printf _ _).
    destruct (IH (done ++ [setImported c]) w1) as (evs & Htr & Hpre).
    eexists ([_; InsertCall ["snippet"] (channelToSubscribeTo rid); _] ++ evs).
    split.
    + rewrite Htr. subst w1. cbn [trace printf emit setTarget afterCall].
      rewrite <- !app_assoc. reflexivity.
    + cbn [app insertCalls]. now apply prefix_cons.
  - eexists [_; InsertCall ["snippet"] (channelToSubscribeTo rid); _].
    split.
    + cbn [snd trace printf emit setTarget afterCall].
      rewrite <- !app_assoc. reflexivity.
    + cbn [insertCalls]. apply prefix_cons, prefix_nil.
  - set (w1 := printf _ _).
    destruct (IH (done ++ [c]) w1) as (evs & Htr & Hpre).
    eexists ([_; InsertCall ["snippet"] (channelToSubscribeTo rid); _] ++ evs).
    split.
    + rewrite Htr. subst w1. cbn [trace printf emit setTarget afterCall].
      rewrite <- !app_assoc. reflexivity.
    + cbn [app insertCalls]. now apply prefix_cons.
  - set (w1 := printf _ _).
    destruct (IH (done ++ [setImported c]) w1) as (evs & Htr & Hpre).
    eexists ([_; InsertCall ["snippet"] (channelToSubscribeTo rid); _] ++ evs).
    split.
    + rewrite Htr. subst w1. cbn [trace printf emit setTarget afterCall].
      rewrite <- !app_assoc. reflexivity.
    + cbn [app insertCalls]. now apply prefix_cons.
  - exists []. cbn [snd]. rewrite app_nil_r. split; [reflexivity|apply prefix_nil].
Qed.

(** A run in which every pending item is one the destination already
    holds: the destination answers with the duplicate signature and
    does not change. *)
Lemma rangeFrom_duplicates (rest : list ChannelImportStatus) :
  forall (done : list ChannelImportStatus) (w : World T),
    Forall (fun c => wellFormed c = true) rest ->
    (forall body,
        body ∈ requests (filter (fun c => Imported c = false) rest) ->
        exists e,
          Insert (targetService w) ["snippet"] body = (Some e, targetService w) /\
          HasSuffix e "subscriptionDuplicate" = true) ->
    exists w',
      rangeFrom Insert (length rest) (length done) (done ++ rest) w
        = (Completed, done ++ (setImported <$> rest), w') /\
      targetService w' = targetService w.
Proof.
  induction rest as [|c rest IH]; intros done w Hall Hdup.
  { exists w. split; reflexivity. }
  apply Forall_cons in Hall as [Hwf Hall]. unfold wellFormed in Hwf.
  destruct (itemRid c) as [rid|] eqn:Hrid; [|discriminate].
  cbn [length]. rewrite rangeFrom_middle.
  destruct (Imported c) eqn:Himp.
  - rewrite (loopBody_skip Insert _ c _ w rid Hrid Himp), rangeFrom_shift.
    rewrite filter_cons_False in Hdup by (rewrite Himp; discriminate).
    set (w1 := printf _ _).
    destruct (IH (done ++ [c]) w1 Hall Hdup) as (w' & Hrun & Htgt).
    exists w'. rewrite Hrun, <- app_assoc. cbn [fmap list_fmap app].
    rewrite (setImported_id c Himp). split; [reflexivity|exact Htgt].
  - rewrite filter_cons_True, (requests_cons c rid _ Hrid) in Hdup by assumption.
    destruct (Hdup (channelToSubscribeTo rid))
      as (e & Hins & Hsuf); [apply list_elem_of_here|].
    rewrite (loopBody_duplicate Insert _ c _ w rid e _ Hrid Himp Hins Hsuf).
    rewrite markImported_middle, rangeFrom_shift.
    set (w1 := printf _ _).
    destruct (IH (done ++ [setImported c]) w1 Hall) as (w' & Hrun & Htgt).
    { intros body Hin. apply Hdup. now apply list_elem_of_further. }
    exists w'. rewrite Hrun, <- app_assoc. split; [reflexivity|exact Htgt].
Qed.

(** C4 (as amended).  Re-running is safe: every item that is already
    Imported keeps its place and its status, is skipped with the
    "already imported" line and causes no insert call, so that insert
    calls are issued for pending items only.  When moreover every
    pending item is one for which the destination reports the duplicate
    signature without changing, the run completes, all items end up
    Imported and the destination is as it was; in particular a plan
    whose items are all Imported is left unchanged and no insert call
    is issued at all. *)
Theorem rerun_skips_imported_items :
  forall (cs : list ChannelImportStatus) (w : World T),
    Forall (fun c => wellFormed c = true) cs ->
    (forall j x, cs !! j = Some x -> Imported x = true ->
       (applyLoop Insert cs w).1.2 !! j = Some x /\
       forall w0 : World T, exists w1,
         loopBody Insert j x cs w0 = (Next, cs, w1) /\
         trace w1 = trace w0 ++
           [Stdout (attemptLine j x);
            Stdout ("already imported, skipping" +:+ newline)] /\
         targetService w1 = targetService w0) /\
    (exists evs,
       trace (applyLoop Insert cs w).2 = trace w ++ evs /\
       insertCalls evs `prefix_of`
         requests (filter (fun c => Imported c = false) cs) /\
       (Forall (fun c => Imported c = true) cs ->
        (applyLoop Insert cs w).1 = (Completed, cs) /\
        targetService (applyLoop Insert cs w).2 = targetService w /\
        insertCalls evs = [])) /\
    ((forall body,
         body ∈ requests (filter (fun c => Imported c = false) cs) ->
         exists e,
           Insert (targetService w) ["snippet"] body
             = (Some e, targetService w) /\
           HasSuffix e "subscriptionDuplicate" = true) ->
     (applyLoop Insert cs w).1 = (Completed, setImported <$> cs) /\
     targetService (applyLoop Insert cs w).2 = targetService w).
Proof.
  intros cs w Hall.
  assert (Hdups :
    (forall body,
         body ∈ requests (filter (fun c => Imported c = false) cs) ->
         exists e,
           Insert (targetService w) ["snippet"] body
             = (Some e, targetService w) /\
           HasSuffix e "subscriptionDuplicate" = true) ->
     (applyLoop Insert cs w).1 = (Completed, setImported <$> cs) /\
     targetService (applyLoop Insert cs w).2 = targetService w).
  { intros Hdup.
    destruct (rangeFrom_duplicates cs [] w Hall Hdup) as (w' & Hrun & Htgt).
    unfold applyLoop. cbn [app length] in Hrun. rewrite Hrun. now split. }
  split; [|split; [|exact Hdups]].
  - intros j x Hj Hx. split.
    + unfold applyLoop. now apply rangeFrom_keeps.
    + intros w0.
      assert (Hwf : wellFormed x = true)
        by (rewrite Forall_lookup in Hall; exact (Hall _ _ Hj)).
      unfold wellFormed in Hwf.
      destruct (itemRid x) as [rid|] eqn:Hrid; [|discriminate].
      rewrite (loopBody_skip Insert j x cs w0 rid Hrid Hx).
      eexists. split; [reflexivity|]. cbn [trace printf emit targetService].
      now rewrite <- app_assoc.
  - destruct (rangeFrom_calls cs [] w) as (evs & Htr & Hpre).
    exists evs. unfold applyLoop. cbn [app length] in Htr.
    split; [exact Htr|]. split; [exact Hpre|].
    intros Himp.
    assert (Hnone : filter (fun c => Imported c = false) cs = []).
    { clear -Himp. induction Himp as [|c cs Hc _ IH]; [reflexivity|].
      rewrite filter_cons_False by (rewrite Hc; discriminate). exact IH. }
    rewrite Hnone in Hpre. cbn [requests] in Hpre.
    apply prefix_nil_inv in Hpre.
    destruct Hdups as [Hrun Htgt].
    { rewrite Hnone. cbn [requests]. intros body Hin.
      now apply elem_of_nil in Hin. }
    unfold applyLoop in Hrun, Htgt. rewrite Hrun. repeat split; try assumption.
    f_equal. clear -Himp. induction Himp as [|c cs Hc _ IH]; [reflexivity|].
    cbn [fmap list_fmap]. rewrite (setImported_id c Hc). f_equal. exact IH.
Qed.
End RunFacts.

(** ** Two destinations that answer alike *)

Section Determinism.
Context {T1 T2 : Type}.
Variable Insert1 : T1 -> list string -> youtube_Subscription -> error * T1.
Variable Insert2 : T2 -> list string -> youtube_Subscription -> error * T2.
Variable answer : youtube_Subscription -> Response.
Hypothesis answers1 :
  forall t body, classify (Insert1 t ["snippet"] body).1 = answer body.
Hypothesis answers2 :
  forall t body, classify (Insert2 t ["snippet"] body).1 = answer body.

Lemma loopBody_same index c cs (w1 : World T1) (w2 : World T2) :
  (loopBody Insert1 index c cs w1).1 = (loopBody Insert2 index c cs w2).1.
Proof.
  destruct (itemRid c) as [rid|] eqn:Hrid.
  - destruct (Imported c) eqn:Himp.
    + now rewrite (loopBody_skip Insert1 _ c _ w1 rid),
                  (loopBody_skip Insert2 _ c _ w2 rid).
    + destruct (Insert1 (targetService w1) ["snippet"] (channelToSubscribeTo rid))
        as [e1 t1] eqn:H1.
      destruct (Insert2 (targetService w2) ["snippet"] (channelToSubscribeTo rid))
        as [e2 t2] eqn:H2.
      rewrite (loopBody_classified Insert1 _ c _ w1 rid e1 t1 Hrid Himp H1).
      rewrite (loopBody_classified Insert2 _ c _ w2 rid e2 t2 Hrid Himp H2).
      pose proof (answers1 (targetService w1) (channelToSubscribeTo rid)) as A1.
      pose proof (answers2 (targetService w2) (channelToSubscribeTo rid)) as A2.
      rewrite H1 in A1. rewrite H2 in A2. cbn [fst] in A1, A2.
      now rewrite A1, A2.
  - now rewrite (loopBody_nil Insert1), (loopBody_nil Insert2).
Qed.

Lemma rangeFrom_same n :
  forall index cs (w1 : World T1) (w2 : World T2),
    (rangeFrom Insert1 n index cs w1).1 = (rangeFrom Insert2 n index cs w2).1.
Proof.
  induction n as [|n IH]; intros index cs w1 w2; cbn [rangeFrom];
    [reflexivity|].
  destruct (cs !! index) as [c|]; [|reflexivity].
  pose proof (loopBody_same index c cs w1 w2) as Hsame.
  destruct (loopBody Insert1 index c cs w1) as [[f1 cs1] w1'].
  destruct (loopBody Insert2 index c cs w2) as [[f2 cs2] w2'].
  cbn [fst] in Hsame. injection Hsame as -> ->.
  destruct f2; [apply IH | reflexivity | reflexivity].
Qed.
End Determinism.

(** C10.  Determinism: two executions of the loop on the same statuses,
    against destinations (of any kind, in any state, in any world) whose
    answers to every request fall in the class fixed for that request,
    end with the same outcome and the same final statuses. *)
Theorem apply_is_deterministic :
  forall (T1 T2 : Type)
         (Insert1 : T1 -> list string -> youtube_Subscription -> error * T1)
         (Insert2 : T2 -> list string -> youtube_Subscription -> error * T2)
         (answer : youtube_Subscription -> Response)
         (cs : list ChannelImportStatus) (w1 : World T1) (w2 : World T2),
    (forall t body, classify (Insert1 t ["snippet"] body).1 = answer body) ->
    (forall t body, classify (Insert2 t ["snippet"] body).1 = answer body) ->
    (applyLoop Insert1 cs w1).1.1 = (applyLoop Insert2 cs w2).1.1 /\
    (applyLoop Insert1 cs w1).1.2 = (applyLoop Insert2 cs w2).1.2.
Proof.
  intros T1 T2 Insert1 Insert2 answer cs w1 w2 A1 A2.
  unfold applyLoop.
  now rewrite (rangeFrom_same Insert1 Insert2 answer A1 A2 (length cs) 0 cs w1 w2).
Qed.

(** ** Facts about the checkpoint *)

Lemma listCalls_app (evs1 evs2 : list Event) :
  listCalls (evs1 ++ evs2) = listCalls evs1 + listCalls evs2.
Proof.
  induction evs1 as [|[] evs1 IH]; cbn [app listCalls]; try exact IH.
  - reflexivity.
  - now rewrite IH.
Qed.

Lemma fold_pages {A} (ps : list (list A)) :
  forall acc, fold_left (fun channels items => channels ++ items) ps acc
              = acc ++ concat ps.
Proof.
  induction ps as [|p ps IH]; intros acc; cbn [fold_left concat].
  - now rewrite app_nil_r.
  - now rewrite IH, app_assoc.
Qed.

Lemma fold_statuses (l : list (option youtube_Subscription)) :
  forall acc,
    fold_left (fun channelStatuses channel =>
                 channelStatuses ++ [{| Channel := channel; Imported := false |}])
              l acc
    = acc ++ ((fun channel => {| Channel := channel; Imported := false |}) <$> l).
Proof.
  induction l as [|x l IH]; intros acc; cbn [fold_left fmap list_fmap].
  - now rewrite app_nil_r.
  - now rewrite IH, <- app_assoc.
Qed.

Section StoreFacts.
Context {T : Type}.
Variable Insert : T -> list string -> youtube_Subscription -> error * T.
Variable gobEncode : list ChannelImportStatus -> list byte.
Variable gobDecode : list byte -> list ChannelImportStatus * error.

(** A save never calls a service. *)
Lemma writeStatusesToFile_frame cs (w : World T) :
  exists evs,
    trace (writeStatusesToFile gobEncode cs w).2 = trace w ++ evs /\
    listCalls evs = 0 /\ insertCalls evs = [].
Proof.
  unfold writeStatusesToFile, osCreate, encoderEncode.
  destruct (createErr (disk w)) as [e|] eqn:Hc.
  { exists []. cbn [snd]. now rewrite app_nil_r. }
  cbn [disk setDisk println printf emit writeErr].
  destruct (writeErr (disk w)) as [e|] eqn:Hw;
    cbn [snd trace setDisk println printf emit].
  - eexists [_]. split; [reflexivity|]. split; reflexivity.
  - eexists [_; _]. rewrite <- app_assoc. split; [reflexivity|].
    split; reflexivity.
Qed.

(** The loop and the final save never call the source. *)
Lemma applyAndSave_frame cs (w : World T) :
  exists evs,
    trace (applyAndSave Insert gobEncode cs w).2 = trace w ++ evs /\
    listCalls evs = 0.
Proof.
  unfold applyAndSave, applyLoop. set (start := printf _ w).
  destruct (rangeFrom_frame Insert (length cs) 0 cs start)
    as (evs & Htr & Hl & _).
  destruct (rangeFrom Insert (length cs) 0 cs start) as [[o cs'] w'].
  cbn [snd] in Htr.
  assert (Hsave : exists evs',
             trace (let '(_, w0) := writeStatusesToFile gobEncode cs' w' in
                    (Returned, w0)).2 = trace w ++ evs' /\ listCalls evs' = 0).
  { destruct (writeStatusesToFile_frame cs' w') as (evs2 & Htr2 & Hl2 & _).
    destruct (writeStatusesToFile gobEncode cs' w') as [err w''].
    cbn [snd] in *. rewrite Htr2, Htr. subst start. cbn [trace printf emit].
    eexists. rewrite <- !app_assoc. split; [reflexivity|].
    cbn [app listCalls]. now rewrite listCalls_app, Hl, Hl2. }
  destruct o; try exact Hsave.
  cbn [snd]. rewrite Htr. subst start. cbn [trace printf emit].
  eexists. rewrite <- !app_assoc. split; [reflexivity|].
  cbn [app listCalls]. exact Hl.
Qed.

(** The branch of [main] taken when the checkpoint file exists. *)
Lemma loadOrBuild_present (w : World T) content :
  files (disk w) !! checkpointFile = Some content ->
  loadOrBuild gobEncode gobDecode w =
    (inl (gobDecode content).1,
     println "Encoded file exists, decoding into channelStatuses" w).
Proof.
  intros Hfile. unfold loadOrBuild, osOpen. rewrite Hfile.
  now destruct (gobDecode content).
Qed.

(** The branch of [main] taken when the file is missing and the source
    lists its subscriptions. *)
Lemma loadOrBuild_absent (w : World T) :
  files (disk w) !! checkpointFile = None ->
  listErr (sourceService w) = None ->
  loadOrBuild gobEncode gobDecode w =
    match
      writeStatusesToFile gobEncode (freshPlan (sourceService w))
        (println "Importing into array"
           (emit (ListCall ["snippet"; "contentDetails"])
              (println "Encoded file doesnt exist, fetching subscriptions" w)))
    with
    | (Some e, w') => (inr (Panic e), w')
    | (None, w') => (inl (freshPlan (sourceService w)), w')
    end.
Proof.
  intros Hfile Herr. unfold loadOrBuild, osOpen, mySubscriptions.
  rewrite Hfile. cbn [sourceService println printf emit]. rewrite Herr.
  rewrite fold_pages, fold_statuses. cbn [app]. unfold freshPlan.
  destruct (writeStatusesToFile _ _ _) as [[e|] w']; reflexivity.
Qed.

(** C7.  First run: when the checkpoint file is missing and the source
    lists its subscriptions, the whole run calls the source exactly
    once; the statuses built are the enumerated channels in page order,
    none imported; and no insert call is recorded before the save of
    these statuses.  On a disk that accepts the save the checkpoint
    holds their encoding when the loop starts; on a disk that refuses
    it the run panics without any insert call. *)
Theorem first_run_snapshots_then_applies :
  forall w : World T,
    files (disk w) !! checkpointFile = None ->
    listErr (sourceService w) = None ->
    let plan := freshPlan (sourceService w) in
    Forall (fun c => Imported c = false) plan /\
    Channel <$> plan = concat (pages (sourceService w)) /\
    exists setup rest,
      trace (main Insert gobEncode gobDecode w).2 = trace w ++ setup ++ rest /\
      listCalls (setup ++ rest) = 1 /\
      insertCalls setup = [] /\
      match createErr (disk w), writeErr (disk w) with
      | None, None =>
          setup = firstRunSetup gobEncode (sourceService w) /\
          exists w1,
            loadOrBuild gobEncode gobDecode w = (inl plan, w1) /\
            trace w1 = trace w ++ setup /\
            files (disk w1) !! checkpointFile = Some (gobEncode plan) /\
            main Insert gobEncode gobDecode w
              = applyAndSave Insert gobEncode plan w1
      | _, _ =>
          rest = [] /\
          exists e, (main Insert gobEncode gobDecode w).1 = Panic e
      end.
Proof.
  intros w Hfile Herr plan.
  split. { unfold plan, freshPlan. now apply Forall_fmap, Forall_true. }
  split. { unfold plan, freshPlan. rewrite <- list_fmap_compose.
           apply list_fmap_id. }
  unfold main. rewrite (loadOrBuild_absent w Hfile Herr). fold plan.
  set (w0 := println "Importing into array" _).
  destruct (createErr (disk w)) as [e|] eqn:Hc.
  { unfold writeStatusesToFile, osCreate. subst w0.
    cbn [disk println printf emit]. rewrite Hc.
    eexists [_; _; _], []. cbn [snd fst trace println printf emit].
    rewrite <- !app_assoc. cbn [app]. repeat split; eauto. }
  destruct (writeErr (disk w)) as [e|] eqn:Hw.
  { unfold writeStatusesToFile, osCreate, encoderEncode. subst w0.
    cbn [disk println printf emit setDisk writeErr]. rewrite Hc.
    cbn [disk println printf emit setDisk writeErr]. rewrite Hw.
    eexists [_; _; _; _], []. cbn [snd fst trace println printf emit setDisk].
    rewrite <- !app_assoc. cbn [app]. repeat split; eauto. }
  destruct (writeStatusesToFile_ok gobEncode plan w0)
    as (w1 & Hsave & Hcontent & Htr & _); [exact Hc | exact Hw |].
  rewrite Hsave.
  destruct (applyAndSave_frame plan w1) as (rest & Hrest & Hl).
  exists (firstRunSetup gobEncode (sourceService w)), rest.
  assert (Hsetup : trace w1 = trace w ++ firstRunSetup gobEncode (sourceService w)).
  { rewrite Htr. subst w0. cbn [trace println printf emit].
    now rewrite <- !app_assoc. }
  split; [now rewrite Hrest, Hsetup, <- app_assoc|].
  split; [now rewrite listCalls_app, Hl|].
  split; [reflexivity|]. split; [reflexivity|].
  exists w1. repeat split; assumption.
Qed.
Lemma saveThenLoad_ok cs (w : World T) :
  createErr (disk w) = None -> writeErr (disk w) = None ->
  gobDecode (gobEncode cs) = (cs, None) ->
  exists w',
    saveThenLoad gobEncode gobDecode cs w = (inl cs, w') /\
    files (disk w') !! checkpointFile = Some (gobEncode cs) /\
    createErr (disk w') = None /\ writeErr (disk w') = None.
Proof.
  intros Hc Hw Hcodec. unfold saveThenLoad.
  destruct (writeStatusesToFile_ok gobEncode cs w Hc Hw)
    as (w1 & Hsave & Hfile & _ & Hc1 & Hw1 & _).
  rewrite Hsave, (loadOrBuild_present w1 _ Hfile), Hcodec.
  eexists. split; [reflexivity|]. now cbn [disk println printf emit].
Qed.

Lemma cycles_ok cs n :
  forall w : World T,
    createErr (disk w) = None -> writeErr (disk w) = None ->
    gobDecode (gobEncode cs) = (cs, None) ->
    exists w',
      cycles gobEncode gobDecode n cs w = (inl cs, w') /\
      createErr (disk w') = None /\ writeErr (disk w') = None.
Proof.
  induction n as [|n IH]; intros w Hc Hw Hcodec; cbn [cycles].
  - exists w. repeat split; assumption.
  - destruct (saveThenLoad_ok cs w Hc Hw Hcodec) as (w1 & Hstep & _ & Hc1 & Hw1).
    rewrite Hstep. now apply IH.
Qed.

(** C8.  Checkpoint round trip: on a disk that accepts the write, and
    for statuses that the codec reads back as written, a save followed
    by the load of the next invocation yields the same statuses, in the
    same order with the same channels and flags, and so does any number
    of save / load cycles. *)
Theorem checkpoint_round_trip :
  forall (cs : list ChannelImportStatus) (w : World T),
    createErr (disk w) = None ->
    writeErr (disk w) = None ->
    gobDecode (gobEncode cs) = (cs, None) ->
    (exists w',
        saveThenLoad gobEncode gobDecode cs w = (inl cs, w') /\
        files (disk w') !! checkpointFile = Some (gobEncode cs)) /\
    forall n, exists w', cycles gobEncode gobDecode n cs w = (inl cs, w').
Proof.
  intros cs w Hc Hw Hcodec. split.
  - destruct (saveThenLoad_ok cs w Hc Hw Hcodec) as (w' & Hstep & Hfile & _).
    now exists w'.
  - intros n. destruct (cycles_ok cs n w Hc Hw Hcodec) as (w' & Hrun & _).
    now exists w'.
Qed.

Lemma applyAndSave_not_fatal cs (w : World T) msg :
  (applyAndSave Insert gobEncode cs w).1 <> Fatal msg.
Proof.
  unfold applyAndSave.
  destruct (applyLoop Insert cs _) as [[[] cs'] w']; cbn [fst];
    try discriminate;
    now destruct (writeStatusesToFile gobEncode cs' w').
Qed.

(** C3 (behaviour of the code).  When the checkpoint file exists and
    decoding it fails, the error is dropped: [main] goes on with
    whatever the decoder left in the slice, it never ends with the
    fatal exit, and when the slice was left empty on a disk that
    accepts writes it returns normally after overwriting the checkpoint
    with the encoding of the empty list. *)
Theorem decode_error_is_dropped :
  forall (w : World T) (content : list byte)
         (partial : list ChannelImportStatus) (e : string),
    files (disk w) !! checkpointFile = Some content ->
    gobDecode content = (partial, Some e) ->
    let w0 := println "Encoded file exists, decoding into channelStatuses" w in
    loadOrBuild gobEncode gobDecode w = (inl partial, w0) /\
    main Insert gobEncode gobDecode w = applyAndSave Insert gobEncode partial w0 /\
    (forall msg, (main Insert gobEncode gobDecode w).1 <> Fatal msg) /\
    (partial = [] -> createErr (disk w) = None -> writeErr (disk w) = None ->
     (main Insert gobEncode gobDecode w).1 = Returned /\
     files (disk (main Insert gobEncode gobDecode w).2) !! checkpointFile
       = Some (gobEncode [])).
Proof.
  intros w content partial e Hfile Hdec w0.
  assert (Hload : loadOrBuild gobEncode gobDecode w = (inl partial, w0)).
  { rewrite (loadOrBuild_present w content Hfile), Hdec. reflexivity. }
  assert (Hmain : main Insert gobEncode gobDecode w
                  = applyAndSave Insert gobEncode partial w0).
  { unfold main. now rewrite Hload. }
  split; [exact Hload|]. split; [exact Hmain|]. split.
  - intros msg. rewrite Hmain. apply applyAndSave_not_fatal.
  - intros -> Hc Hw. rewrite Hmain. unfold applyAndSave, applyLoop.
    cbn [length rangeFrom]. set (w1 := printf _ w0).
    destruct (writeStatusesToFile_ok gobEncode [] w1)
      as (w2 & Hsave & Hcontent & _); [exact Hc | exact Hw |].
    rewrite Hsave. split; [reflexivity|exact Hcontent].
Qed.

(** C9 (behaviour of the code).  The error of the save that ends a run
    is dropped.  When the file cannot be created, the run returns
    normally and the world is exactly the one the loop left: nothing is
    printed and the file is not touched.  When the file is created but
    the write fails, the run returns normally as well, the only line
    printed is the one that announces the encoding, and the file is
    left empty. *)
Theorem final_save_error_is_dropped :
  forall (cs : list ChannelImportStatus) (w : World T) (e : string),
    Forall (fun c => wellFormed c = true) cs ->
    let start :=
      printf ("Importing up to " +:+ fmtInt (length cs)
              +:+ " unimported channels 1 by 1" +:+ newline) w in
    let after := (applyLoop Insert cs start).2 in
    (createErr (disk w) = Some e ->
     (writeStatusesToFile gobEncode (applyLoop Insert cs start).1.2 after).1
       = Some e /\
     applyAndSave Insert gobEncode cs w = (Returned, after) /\
     files (disk after) = files (disk w)) /\
    (createErr (disk w) = None -> writeErr (disk w) = Some e ->
     (writeStatusesToFile gobEncode (applyLoop Insert cs start).1.2 after).1
       = Some e /\
     (applyAndSave Insert gobEncode cs w).1 = Returned /\
     trace (applyAndSave Insert gobEncode cs w).2 =
       trace after ++ [Stdout ("Encoding channelStatuses to file" +:+ newline)] /\
     files (disk (applyAndSave Insert gobEncode cs w).2) !! checkpointFile
       = Some []).
Proof.
  intros cs w e Hall start after.
  pose proof (rangeFrom_no_crash Insert (length cs) 0 cs start Hall) as Hno.
  destruct (rangeFrom_frame Insert (length cs) 0 cs start)
    as (evs & _ & _ & Hdisk & _).
  fold (applyLoop Insert cs start) in Hno, Hdisk. fold after in Hdisk.
  unfold applyAndSave. fold start. subst after.
  destruct (applyLoop Insert cs start) as [[o cs'] w'] eqn:Hloop.
  cbn [fst snd] in *.
  assert (Ho : match o with Crashed _ => False | _ => True end)
    by (destruct o; auto; now destruct (Hno msg)).
  change (disk start) with (disk w) in Hdisk.
  split.
  - intros Hc. unfold writeStatusesToFile, osCreate.
    rewrite Hdisk, Hc. cbn [fst].
    destruct o; try contradiction; repeat split; now rewrite ?Hdisk.
  - intros Hc Hw. unfold writeStatusesToFile, osCreate, encoderEncode.
    rewrite Hdisk, Hc. cbn [disk setDisk println printf emit writeErr].
    rewrite Hw. cbn [fst].
    destruct o; try contradiction;
      cbn [fst snd trace disk files setDisk println printf emit];
      rewrite lookup_insert_eq; repeat split; reflexivity.
Qed.
End StoreFacts.

(** ** The theorems at concrete inputs *)

Lemma quota_halt_preserves_progress_witness :
  let w := Demo.world (Demo.okDisk ∅) Demo.noSource [None; Some Demo.quotaErr] in
  let halted :=
    [Demo.item "UC-a" "Alpha" true; Demo.item "UC-b" "Beta" false;
     Demo.item "UC-c" "Gamma" false] in
  (applyLoop Scripted.Insert Demo.plan3
     (printf ("Importing up to 3 unimported channels 1 by 1" +:+ newline) w)).1
    = (HaltedOnQuota, halted) /\
  (applyAndSave Scripted.Insert Demo.encode Demo.plan3 w).1 = Returned /\
  files (disk (applyAndSave Scripted.Insert Demo.encode Demo.plan3 w).2)
    !! checkpointFile = Some (Demo.encode halted).
Proof.
  intros w halted.
  destruct (quota_halt_preserves_progress Scripted.Insert Demo.encode
              Demo.plan3 w 1 Demo.quotaErr)
    as (w' & Hloop & _ & _ & _ & Hrun & Hfile).
  - repeat constructor.
  - cbn. lia.
  - reflexivity.
  - reflexivity.
  - split; [|split].
    + exact (f_equal fst Hloop).
    + rewrite Hrun. reflexivity.
    + apply Hfile; reflexivity.
Defined.

Lemma imported_never_reverts_witness :
  let ws :=
    [Demo.world (Demo.okDisk ∅) Demo.noSource [Some Demo.quotaErr];
     Demo.world (Demo.okDisk ∅) Demo.noSource [Some Demo.otherErr];
     Demo.world (Demo.okDisk ∅) Demo.noSource [None]] in
  runs Scripted.Insert ws Demo.rerunPlan !! 0
    = Some (Demo.item "UC-a" "Alpha" true) /\
  length (runs Scripted.Insert ws Demo.rerunPlan) = 2.
Proof.
  intros ws.
  exact (proj2 (proj2
           (imported_never_reverts Scripted.Insert Demo.rerunPlan 0
              (Demo.item "UC-a" "Alpha" true) eq_refl eq_refl)) ws).
Defined.

Lemma decode_error_is_dropped_witness :
  let w := Demo.world Demo.truncatedDisk Demo.noSource ([] : list error) in
  Demo.decode [] = ([], Some "EOF") /\
  (main Scripted.Insert Demo.encode Demo.decode w).1 = Returned /\
  files (disk (main Scripted.Insert Demo.encode Demo.decode w).2)
    !! checkpointFile = Some (Demo.encode []).
Proof.
  intros w. split; [reflexivity|].
  apply (decode_error_is_dropped Scripted.Insert Demo.encode Demo.decode
           w [] [] "EOF"); reflexivity.
Defined.

Lemma rerun_skips_imported_items_witness :
  let w := Demo.world (Demo.okDisk ∅) Demo.noSource Demo.subsAB in
  (applyLoop Account.Insert Demo.rerunPlan w).1
    = (Completed, setImported <$> Demo.rerunPlan) /\
  targetService (applyLoop Account.Insert Demo.rerunPlan w).2 = Demo.subsAB.
Proof.
  intros w.
  apply (rerun_skips_imported_items Account.Insert Demo.rerunPlan w).
  - repeat constructor.
  - intros body Hin.
    apply list_elem_of_singleton in Hin as ->.
    exists Account.duplicateErr. split; reflexivity.
Defined.

Lemma rerun_changes_imported_set :
  let cs := Demo.rerunPlan in
  let w := Demo.world (Demo.okDisk ∅) Demo.noSource Demo.subsAB in
  (exists c, c ∈ cs /\ Imported c = true) /\
  (forall body, body ∈ requests cs ->
     Account.Insert Demo.subsAB ["snippet"] body
       = (Some Account.duplicateErr, Demo.subsAB) /\
     HasSuffix Account.duplicateErr "subscriptionDuplicate" = true) /\
  targetService (applyLoop Account.Insert cs w).2 = Demo.subsAB /\
  importedItems cs = [Demo.item "UC-a" "Alpha" true] /\
  importedItems (applyLoop Account.Insert cs w).1.2
    = [Demo.item "UC-a" "Alpha" true; Demo.item "UC-b" "Beta" true] /\
  importedItems (applyLoop Account.Insert cs w).1.2 <> importedItems cs.
Proof.
  intros cs w. split.
  { exists (Demo.item "UC-a" "Alpha" true). split; [|reflexivity].
    apply list_elem_of_here. }
  split.
  { intros body Hin. change (requests cs) with
      [channelToSubscribeTo {| ChannelId := "UC-a"; Kind := "youtube#channel" |};
       channelToSubscribeTo {| ChannelId := "UC-b"; Kind := "youtube#channel" |}]
      in Hin.
    apply elem_of_cons in Hin as [->|Hin]; [split; reflexivity|].
    apply list_elem_of_singleton in Hin as ->. split; reflexivity. }
  split; [reflexivity|]. split; [reflexivity|]. split; [reflexivity|].
  discriminate.
Qed.

Lemma duplicate_marks_imported_witness :
  let cs := [Demo.item "UC-b" "Beta" false] in
  let w := Demo.world (Demo.okDisk ∅) Demo.noSource Demo.subsAB in
  exists w',
    loopBody Account.Insert 0 (Demo.item "UC-b" "Beta" false) cs w
      = (Next, [Demo.item "UC-b" "Beta" true], w').
Proof.
  intros cs w.
  destruct (duplicate_marks_imported Account.Insert cs w 0
              (Demo.item "UC-b" "Beta" false)
              {| ChannelId := "UC-b"; Kind := "youtube#channel" |}
              Account.duplicateErr Demo.subsAB
              eq_refl eq_refl eq_refl eq_refl eq_refl)
    as (w' & Hbody & _).
  exists w'. exact Hbody.
Defined.

Lemma other_error_is_skipped_witness :
  let cs := [Demo.item "UC-a" "Alpha" false; Demo.item "UC-b" "Beta" false] in
  let w := Demo.world (Demo.okDisk ∅) Demo.noSource [Some Demo.otherErr; None] in
  (exists w',
     loopBody Scripted.Insert 0 (Demo.item "UC-a" "Alpha" false) cs w
       = (Next, cs, w') /\
     trace w' =
       [Stdout "Attempting to add channel #0: Alpha: ";
        InsertCall ["snippet"]
          (channelToSubscribeTo {| ChannelId := "UC-a"; Kind := "youtube#channel" |});
        Stdout ("stopping with error: " +:+ Demo.otherErr +:+ newline)]) /\
  (applyAndSave Scripted.Insert Demo.encode cs w).1 = Returned.
Proof.
  intros cs w.
  destruct (other_error_is_skipped Scripted.Insert Demo.encode cs w 0
              (Demo.item "UC-a" "Alpha" false)
              {| ChannelId := "UC-a"; Kind := "youtube#channel" |}
              Demo.otherErr [None]
              eq_refl eq_refl eq_refl eq_refl eq_refl eq_refl)
    as (w' & Hbody & Htrace & _ & Hreturns).
  split.
  - exists w'. split; [exact Hbody | exact Htrace].
  - apply Hreturns. repeat constructor.
Defined.

Lemma first_run_snapshots_then_applies_witness :
  let w := Demo.world (Demo.okDisk ∅) Demo.source3 ([] : list error) in
  freshPlan Demo.source3 = Demo.plan3 /\
  exists setup rest,
    trace (main Scripted.Insert Demo.encode Demo.decode w).2 = setup ++ rest /\
    listCalls (setup ++ rest) = 1 /\
    insertCalls setup = [] /\
    setup = firstRunSetup Demo.encode Demo.source3.
Proof.
  intros w. split; [reflexivity|].
  destruct (first_run_snapshots_then_applies Scripted.Insert Demo.encode
              Demo.decode w eq_refl eq_refl)
    as (_ & _ & setup & rest & Htrace & Hcalls & Hnone & Hsetup & _).
  exists setup, rest. repeat split; assumption.
Defined.

Lemma checkpoint_round_trip_witness :
  let w := Demo.world (Demo.okDisk ∅) Demo.noSource ([] : list error) in
  Demo.decode (Demo.encode Demo.rerunPlan) = (Demo.rerunPlan, None) /\
  exists w',
    cycles Demo.encode Demo.decode 3 Demo.rerunPlan w = (inl Demo.rerunPlan, w').
Proof.
  intros w. split; [reflexivity|].
  exact (proj2 (checkpoint_round_trip Demo.encode Demo.decode Demo.rerunPlan w
                  eq_refl eq_refl eq_refl) 3).
Defined.

Lemma final_save_error_is_dropped_witness :
  let w := Demo.world Demo.readOnlyDisk Demo.noSource ([] : list error) in
  let w0 := println "Encoded file exists, decoding into channelStatuses" w in
  main Scripted.Insert Demo.encode Demo.decode w
    = applyAndSave Scripted.Insert Demo.encode Demo.plan3 w0 /\
  (applyAndSave Scripted.Insert Demo.encode Demo.plan3 w0).1 = Returned /\
  files (disk (applyAndSave Scripted.Insert Demo.encode Demo.plan3 w0).2)
    !! checkpointFile = Some (Demo.encode Demo.plan3) /\
  last (trace (applyAndSave Scripted.Insert Demo.encode Demo.plan3 w0).2)
    = Some (Stdout ("successfully subscribed to channel" +:+ newline)).
Proof.
  intros w w0. split; [reflexivity|].
  destruct (proj1 (final_save_error_is_dropped Scripted.Insert Demo.encode
                     Demo.plan3 w0 "open importStatus.gob: permission denied"
                     ltac:(repeat constructor)) eq_refl)
    as (_ & Hrun & _).
  rewrite Hrun. repeat split; reflexivity.
Defined.

Lemma apply_is_deterministic_witness :
  let w1 := Demo.world (Demo.okDisk ∅) Demo.noSource tt in
  let w2 := Demo.world Demo.readOnlyDisk Demo.source3 7 in
  (applyLoop Fixed.Insert Demo.plan3 w1).1.1 = HaltedOnQuota /\
  (applyLoop Fixed.CountingInsert Demo.plan3 w2).1.1 = HaltedOnQuota /\
  (applyLoop Fixed.Insert Demo.plan3 w1).1.2
    = (applyLoop Fixed.CountingInsert Demo.plan3 w2).1.2.
Proof.
  intros w1 w2.
  destruct (apply_is_deterministic unit nat Fixed.Insert Fixed.CountingInsert
              (fun body => classify (Fixed.answerFor body)) Demo.plan3 w1 w2
              (fun _ _ => eq_refl) (fun _ _ => eq_refl))
    as [Houtcome Hstate].
  split; [reflexivity|]. split; [rewrite <- Houtcome; reflexivity|].
  exact Hstate.
Defined.


(** ** More about the loop: what a run may change and which calls it makes *)

(** One step of the loop over [done ++ c :: rest], ready for the case
    analysis on the item [c]. *)
Ltac loop_step Insert done c rest w :=
  cbn [length]; rewrite (rangeFrom_middle Insert done rest c w);
  body_cases Insert (length done) c (done ++ c :: rest) w;
  cbv beta match;
  rewrite ?markImported_middle, ?(rangeFrom_shift Insert).

Lemma elem_of_insertCalls_app_r (evs1 evs2 : list Event) body :
  body ∈ insertCalls evs2 -> body ∈ insertCalls (evs1 ++ evs2).
Proof.
  intros Hin. rewrite insertCalls_app. apply elem_of_app. now right.
Qed.

Section CallFacts.
Context {T : Type}.
Variable Insert : T -> list string -> youtube_Subscription -> error * T.

(** Every item comes out of a run as it went in or with its flag set,
    and the flag is set only for an item whose request was sent. *)
Lemma rangeFrom_growth (rest : list ChannelImportStatus) :
  forall (done : list ChannelImportStatus) (w : World T),
  exists rest' evs,
    (rangeFrom Insert (length rest) (length done) (done ++ rest) w).1.2
      = done ++ rest' /\
    trace (rangeFrom Insert (length rest) (length done) (done ++ rest) w).2
      = trace w ++ evs /\
    Forall2
      (fun x x' =>
         x' = x \/
         (Imported x = false /\ x' = setImported x /\
          exists rid, itemRid x = Some rid /\
                      channelToSubscribeTo rid ∈ insertCalls evs))
      rest rest'.
Proof.
  induction rest as [|c rest IH]; intros done w.
  { exists [], []. cbn. rewrite !app_nil_r. repeat split. constructor. }
  assert (Hsame : forall evs : list Event,
             Forall2
               (fun x x' =>
                  x' = x \/
                  (Imported x = false /\ x' = setImported x /\
                   exists rid, itemRid x = Some rid /\
                               channelToSubscribeTo rid ∈ insertCalls evs))
               rest rest).
  { intros evs. apply Forall2_same_length_lookup_2; [reflexivity|].
    intros i x y Hx Hy. left. congruence. }
  assert (Hmono : forall (pre evs : list Event) l l',
             Forall2
               (fun x x' =>
                  x' = x \/
                  (Imported x = false /\ x' = setImported x /\
                   exists rid, itemRid x = Some rid /\
                               channelToSubscribeTo rid ∈ insertCalls evs))
               l l' ->
             Forall2
               (fun x x' =>
                  x' = x \/
                  (Imported x = false /\ x' = setImported x /\
                   exists rid, itemRid x = Some rid /\
                               channelToSubscribeTo rid ∈ insertCalls (pre ++ evs)))
               l l').
  { intros pre evs l l' H. eapply Forall2_impl; [exact H|].
    intros x x' [->|(Hp & -> & rid & Hr & Hin)]; [now left|right].
    repeat split; try assumption. exists rid. split; [exact Hr|].
    now apply elem_of_insertCalls_app_r. }
  loop_step Insert done c rest w.
  - set (w1 := printf _ _).
    destruct (IH (done ++ [c]) w1) as (rest' & evs & Hl & Htr & Hall).
    exists (c :: rest'),
      ([Stdout (attemptLine (length done) c);
        Stdout ("already imported, skipping" +:+ newline)] ++ evs).
    rewrite Hl, Htr, <- !app_assoc. subst w1. cbn [trace printf emit].
    rewrite <- !app_assoc. repeat split.
    constructor; [now left|]. now apply Hmono.
  - set (w1 := printf _ _).
    destruct (IH (done ++ [setImported c]) w1) as (rest' & evs & Hl & Htr & Hall).
    exists (setImported c :: rest'),
      ([Stdout (attemptLine (length done) c);
        InsertCall ["snippet"] (channelToSubscribeTo rid);
        Stdout ("previously subscribed, marking as imported ("
                +:+ e +:+ ")" +:+ newline)] ++ evs).
    rewrite Hl, Htr, <- !app_assoc. subst w1.
    cbn [trace printf emit setTarget afterCall].
    rewrite <- !app_assoc. repeat split.
    constructor; [|now apply Hmono].
    right. split; [exact Himp|]. split; [reflexivity|].
    exists rid. split; [exact Hrid|].
    cbn [app insertCalls]. apply list_elem_of_here.
  - exists (c :: rest),
      [Stdout (attemptLine (length done) c);
       InsertCall ["snippet"] (channelToSubscribeTo rid);
       Stdout (" quota exceeded, can't import any more today. Stopping"
               +:+ newline)].
    cbn [fst snd trace printf emit setTarget afterCall].
    rewrite <- !app_assoc. repeat split.
    constructor; [now left|apply Hsame].
  - set (w1 := printf _ _).
    destruct (IH (done ++ [c]) w1) as (rest' & evs & Hl & Htr & Hall).
    exists (c :: rest'),
      ([Stdout (attemptLine (length done) c);
        InsertCall ["snippet"] (channelToSubscribeTo rid);
        Stdout ("stopping with error: " +:+ e +:+ newline)] ++ evs).
    rewrite Hl, Htr, <- !app_assoc. subst w1.
    cbn [trace printf emit setTarget afterCall].
    rewrite <- !app_assoc. repeat split.
    constructor; [now left|]. now apply Hmono.
  - set (w1 := printf _ _).
    destruct (IH (done ++ [setImported c]) w1) as (rest' & evs & Hl & Htr & Hall).
    exists (setImported c :: rest'),
      ([Stdout (attemptLine (length done) c);
        InsertCall ["snippet"] (channelToSubscribeTo rid);
        Stdout ("successfully subscribed to channel" +:+ newline)] ++ evs).
    rewrite Hl, Htr, <- !app_assoc. subst w1.
    cbn [trace printf emit setTarget afterCall].
    rewrite <- !app_assoc. repeat split.
    constructor; [|now apply Hmono].
    right. split; [exact Himp|]. split; [reflexivity|].
    exists rid. split; [exact Hrid|].
    cbn [app insertCalls]. apply list_elem_of_here.
  - exists (c :: rest), []. cbn [fst snd]. rewrite app_nil_r. repeat split.
    constructor; [now left|apply Hsame].
Qed.
End CallFacts.

Section CallTheorems.
Context {T : Type}.
Variable Insert : T -> list string -> youtube_Subscription -> error * T.
Variable gobEncode : list ChannelImportStatus -> list byte.

(** A run changes nothing but flags: the plan keeps its length, its
    order and its channels; an item comes out as it went in or with its
    flag set, and the flag is set only for a pending item whose insert
    request was sent during this run. *)
Theorem run_changes_flags_only :
  forall (cs : list ChannelImportStatus) (w : World T),
  exists evs,
    trace (applyLoop Insert cs w).2 = trace w ++ evs /\
    length (applyLoop Insert cs w).1.2 = length cs /\
    Channel <$> (applyLoop Insert cs w).1.2 = Channel <$> cs /\
    forall j x x',
      cs !! j = Some x -> (applyLoop Insert cs w).1.2 !! j = Some x' ->
      x' = x \/
      (Imported x = false /\ x' = setImported x /\
       exists rid, itemRid x = Some rid /\
                   channelToSubscribeTo rid ∈ insertCalls evs).
Proof.
  intros cs w. unfold applyLoop.
  destruct (rangeFrom_growth Insert cs [] w) as (cs' & evs & Hl & Htr & Hall).
  cbn [app length] in Hl, Htr. rewrite Hl. exists evs.
  split; [exact Htr|]. split; [symmetry; eapply Forall2_length; exact Hall|].
  split.
  - clear -Hall. induction Hall as [|x x' l l' Hx _ IH]; [reflexivity|].
    cbn [fmap list_fmap]. f_equal; [|exact IH].
    destruct Hx as [->|(_ & -> & _)]; reflexivity.
  - intros j x x' Hx Hx'.
    exact (Forall2_lookup_lr _ _ _ _ _ _ Hall Hx Hx').
Qed.

(** A run in which every request for a pending item is accepted. *)
Lemma rangeFrom_accepted (rest : list ChannelImportStatus) :
  forall (done : list ChannelImportStatus) (w : World T),
    Forall (fun c => wellFormed c = true) rest ->
    responses Insert (targetService w)
      (requests (filter (fun c => Imported c = false) rest))
      = replicate (length (filter (fun c => Imported c = false) rest)) None ->
    exists w',
      rangeFrom Insert (length rest) (length done) (done ++ rest) w
        = (Completed, done ++ (setImported <$> rest), w') /\
      disk w' = disk w.
Proof.
  induction rest as [|c rest IH]; intros done w Hall Hresp.
  { exists w. split; reflexivity. }
  apply Forall_cons in Hall as [Hwf Hall]. unfold wellFormed in Hwf.
  destruct (itemRid c) as [rid|] eqn:Hrid; [|discriminate].
  cbn [length]. rewrite rangeFrom_middle.
  destruct (Imported c) eqn:Himp.
  - rewrite (loopBody_skip Insert _ c _ w rid Hrid Himp), rangeFrom_shift.
    rewrite filter_cons_False in Hresp by (rewrite Himp; discriminate).
    set (w1 := printf _ _).
    destruct (IH (done ++ [c]) w1 Hall Hresp) as (w' & Hrun & Hdisk).
    exists w'. rewrite Hrun, <- app_assoc. cbn [fmap list_fmap app].
    rewrite (setImported_id c Himp). split; [reflexivity|exact Hdisk].
  - rewrite filter_cons_True, (requests_cons c rid _ Hrid) in Hresp by assumption.
    cbn [responses length replicate] in Hresp.
    destruct (Insert (targetService w) ["snippet"] (channelToSubscribeTo rid))
      as [err t] eqn:Hins.
    assert (err = None) by congruence. subst err.
    assert (Htail :
      responses Insert t (requests (filter (fun c => Imported c = false) rest))
      = replicate (length (filter (fun c => Imported c = false) rest)) None)
      by congruence.
    rewrite (loopBody_success Insert _ c _ w rid t Hrid Himp Hins).
    rewrite markImported_middle, rangeFrom_shift.
    set (w1 := printf _ _).
    destruct (IH (done ++ [setImported c]) w1 Hall Htail) as (w' & Hrun & Hdisk).
    exists w'. rewrite Hrun, <- app_assoc. split; [reflexivity|exact Hdisk].
Qed.

(** When the destination accepts the request of every pending item, the
    run completes with every item Imported, returns normally, and on a
    disk that accepts the write leaves the encoding of the completed plan
    in the checkpoint. *)
Theorem accepted_run_completes :
  forall (cs : list ChannelImportStatus) (w : World T),
    Forall (fun c => wellFormed c = true) cs ->
    responses Insert (targetService w)
      (requests (filter (fun c => Imported c = false) cs))
      = replicate (length (filter (fun c => Imported c = false) cs)) None ->
    (applyLoop Insert cs w).1 = (Completed, setImported <$> cs) /\
    (applyAndSave Insert gobEncode cs w).1 = Returned /\
    (createErr (disk w) = None -> writeErr (disk w) = None ->
     files (disk (applyAndSave Insert gobEncode cs w).2) !! checkpointFile
       = Some (gobEncode (setImported <$> cs))).
Proof.
  intros cs w Hall Hresp. split; [|split].
  - destruct (rangeFrom_accepted cs [] w Hall Hresp) as (w' & Hrun & _).
    unfold applyLoop. cbn [app length] in Hrun. now rewrite Hrun.
  - now apply applyAndSave_returns.
  - intros Hc Hw. unfold applyAndSave, applyLoop. set (start := printf _ w).
    destruct (rangeFrom_accepted cs [] start Hall Hresp) as (w' & Hrun & Hdisk).
    cbn [app length] in Hrun. rewrite Hrun.
    change (disk start) with (disk w) in Hdisk. rewrite <- Hdisk in Hc, Hw.
    destruct (writeStatusesToFile_ok gobEncode (setImported <$> cs) w' Hc Hw)
      as (w'' & Hsave & Hfile & _).
    now rewrite Hsave.
Qed.

(** The insert calls of a run that was not cut short. *)
Lemma rangeFrom_completed_calls (rest : list ChannelImportStatus) :
  forall (done : list ChannelImportStatus) (w : World T),
    (rangeFrom Insert (length rest) (length done) (done ++ rest) w).1.1
      = Completed ->
    Forall (fun c => wellFormed c = true) rest /\
    exists evs,
      trace (rangeFrom Insert (length rest) (length done) (done ++ rest) w).2
        = trace w ++ evs /\
      insertCalls evs = requests (filter (fun c => Imported c = false) rest).
Proof.
  induction rest as [|c rest IH]; intros done w.
  { intros _. split; [constructor|]. exists []. cbn. now rewrite app_nil_r. }
  loop_step Insert done c rest w; cbn [fst]; intros Hdone; try discriminate;
    try (rewrite filter_cons_True by assumption;
         rewrite (requests_cons c rid _ Hrid));
    try (rewrite filter_cons_False by (rewrite Himp; discriminate));
    set (w1 := printf _ _) in *;
    (assert (Hwf : wellFormed c = true) by (unfold wellFormed; now rewrite Hrid)).
  - destruct (IH (done ++ [c]) w1 Hdone) as (Hall & evs & Htr & Hcalls).
    split; [now constructor|].
    exists ([Stdout (attemptLine (length done) c);
             Stdout ("already imported, skipping" +:+ newline)] ++ evs).
    rewrite Htr. subst w1. cbn [trace printf emit].
    rewrite <- !app_assoc. split; [reflexivity|exact Hcalls].
  - destruct (IH (done ++ [setImported c]) w1 Hdone) as (Hall & evs & Htr & Hcalls).
    split; [now constructor|].
    eexists ([_; InsertCall ["snippet"] (channelToSubscribeTo rid); _] ++ evs).
    rewrite Htr. subst w1. cbn [trace printf emit setTarget afterCall].
    rewrite <- !app_assoc. split; [reflexivity|].
    cbn [app insertCalls]. now rewrite Hcalls.
  - destruct (IH (done ++ [c]) w1 Hdone) as (Hall & evs & Htr & Hcalls).
    split; [now constructor|].
    eexists ([_; InsertCall ["snippet"] (channelToSubscribeTo rid); _] ++ evs).
    rewrite Htr. subst w1. cbn [trace printf emit setTarget afterCall].
    rewrite <- !app_assoc. split; [reflexivity|].
    cbn [app insertCalls]. now rewrite Hcalls.
  - destruct (IH (done ++ [setImported c]) w1 Hdone) as (Hall & evs & Htr & Hcalls).
    split; [now constructor|].
    eexists ([_; InsertCall ["snippet"] (channelToSubscribeTo rid); _] ++ evs).
    rewrite Htr. subst w1. cbn [trace printf emit setTarget afterCall].
    rewrite <- !app_assoc. split; [reflexivity|].
    cbn [app insertCalls]. now rewrite Hcalls.
Qed.

(** A run that reaches the end of the plan has sent exactly one insert
    request for every pending item, in plan order, and none for the
    others; every item of such a plan is free of nil pointers. *)
Theorem completed_run_calls_each_pending_item_once :
  forall (cs : list ChannelImportStatus) (w : World T),
    (applyLoop Insert cs w).1.1 = Completed ->
    Forall (fun c => wellFormed c = true) cs /\
    exists evs,
      trace (applyLoop Insert cs w).2 = trace w ++ evs /\
      insertCalls evs = requests (filter (fun c => Imported c = false) cs) /\
      length (insertCalls evs)
        = length (filter (fun c => Imported c = false) cs).
Proof.
  intros cs w Hdone. unfold applyLoop in *.
  destruct (rangeFrom_completed_calls cs [] w Hdone) as (Hall & evs & Htr & Hcalls).
  split; [exact Hall|]. exists evs. split; [exact Htr|]. split; [exact Hcalls|].
  rewrite Hcalls. clear -Hall.
  induction Hall as [|c cs Hc _ IH]; [reflexivity|].
  unfold wellFormed in Hc. destruct (itemRid c) as [rid|] eqn:Hrid; [|discriminate].
  destruct (Imported c) eqn:Himp.
  - rewrite filter_cons_False by (rewrite Himp; discriminate). exact IH.
  - rewrite filter_cons_True by assumption.
    rewrite (requests_cons c rid _ Hrid). cbn [length]. now rewrite IH.
Qed.
End CallTheorems.

(** ** The quota line and the nil pointer *)

(** Closes a goal whose hypothesis [H] puts the quota line among the
    lines of a step that does not print it. *)
Ltac no_quota_line H :=
  repeat (apply elem_of_cons in H as [H|H]);
  [..|now apply elem_of_nil in H];
  try discriminate H;
  injection H as H; unfold attemptLine, quotaLine in H;
  rewrite ?append_cons in H; discriminate H.

Section OutcomeFacts.
Context {T : Type}.
Variable Insert : T -> list string -> youtube_Subscription -> error * T.
Variable gobEncode : list ChannelImportStatus -> list byte.

Lemma rangeFrom_quota_line (rest : list ChannelImportStatus) :
  forall (done : list ChannelImportStatus) (w : World T),
  exists evs,
    trace (rangeFrom Insert (length rest) (length done) (done ++ rest) w).2
      = trace w ++ evs /\
    ((rangeFrom Insert (length rest) (length done) (done ++ rest) w).1.1
       = HaltedOnQuota <-> Stdout quotaLine ∈ evs) /\
    ((rangeFrom Insert (length rest) (length done) (done ++ rest) w).1.1
       = HaltedOnQuota -> last evs = Some (Stdout quotaLine)).
Proof.
  induction rest as [|c rest IH]; intros done w.
  { exists []. cbn. rewrite app_nil_r. split; [reflexivity|]. split.
    - split; [discriminate|]. intros H. now apply elem_of_nil in H.
    - discriminate. }
  loop_step Insert done c rest w; try set (w1 := printf _ _).
  - destruct (IH (done ++ [c]) w1) as (evs & Htr & Hiff & Hlast).
    exists ([Stdout (attemptLine (length done) c);
             Stdout ("already imported, skipping" +:+ newline)] ++ evs).
    split; [rewrite Htr; subst w1; cbn [trace printf emit setTarget afterCall];
            now rewrite <- !app_assoc|].
    split.
    + rewrite Hiff, elem_of_app. split; [now right|].
      intros [H|H]; [no_quota_line H|exact H].
    + intros Hh. rewrite last_app, (Hlast Hh). reflexivity.
  - destruct (IH (done ++ [setImported c]) w1) as (evs & Htr & Hiff & Hlast).
    exists ([Stdout (attemptLine (length done) c);
             InsertCall ["snippet"] (channelToSubscribeTo rid);
             Stdout ("previously subscribed, marking as imported ("
                     +:+ e +:+ ")" +:+ newline)] ++ evs).
    split; [rewrite Htr; subst w1; cbn [trace printf emit setTarget afterCall];
            now rewrite <- !app_assoc|].
    split.
    + rewrite Hiff, elem_of_app. split; [now right|].
      intros [H|H]; [no_quota_line H|exact H].
    + intros Hh. rewrite last_app, (Hlast Hh). reflexivity.
  - exists [Stdout (attemptLine (length done) c);
            InsertCall ["snippet"] (channelToSubscribeTo rid);
            Stdout quotaLine].
    subst w1. cbn [fst snd trace printf emit setTarget afterCall].
    rewrite <- !app_assoc. split; [reflexivity|]. split.
    + split; [|reflexivity]. intros _.
      apply list_elem_of_further, list_elem_of_further, list_elem_of_here.
    + reflexivity.
  - destruct (IH (done ++ [c]) w1) as (evs & Htr & Hiff & Hlast).
    exists ([Stdout (attemptLine (length done) c);
             InsertCall ["snippet"] (channelToSubscribeTo rid);
             Stdout ("stopping with error: " +:+ e +:+ newline)] ++ evs).
    split; [rewrite Htr; subst w1; cbn [trace printf emit setTarget afterCall];
            now rewrite <- !app_assoc|].
    split.
    + rewrite Hiff, elem_of_app. split; [now right|].
      intros [H|H]; [no_quota_line H|exact H].
    + intros Hh. rewrite last_app, (Hlast Hh). reflexivity.
  - destruct (IH (done ++ [setImported c]) w1) as (evs & Htr & Hiff & Hlast).
    exists ([Stdout (attemptLine (length done) c);
             InsertCall ["snippet"] (channelToSubscribeTo rid);
             Stdout ("successfully subscribed to channel" +:+ newline)] ++ evs).
    split; [rewrite Htr; subst w1; cbn [trace printf emit setTarget afterCall];
            now rewrite <- !app_assoc|].
    split.
    + rewrite Hiff, elem_of_app. split; [now right|].
      intros [H|H]; [no_quota_line H|exact H].
    + intros Hh. rewrite last_app, (Hlast Hh). reflexivity.
  - exists []. cbn [fst snd]. rewrite app_nil_r. split; [reflexivity|]. split.
    + split; [discriminate|]. intros H. now apply elem_of_nil in H.
    + discriminate.
Qed.

(** The loop stops on the quota exactly when it prints the quota line,
    and then this line is the last thing the loop does: no request and no
    line follows it. *)
Theorem quota_line_marks_the_halt :
  forall (cs : list ChannelImportStatus) (w : World T),
  exists evs,
    trace (applyLoop Insert cs w).2 = trace w ++ evs /\
    ((applyLoop Insert cs w).1.1 = HaltedOnQuota <-> Stdout quotaLine ∈ evs) /\
    ((applyLoop Insert cs w).1.1 = HaltedOnQuota ->
     last evs = Some (Stdout quotaLine)).
Proof.
  intros cs w. unfold applyLoop. exact (rangeFrom_quota_line cs [] w).
Qed.

Lemma rangeFrom_crash_msg n :
  forall index cs (w : World T) msg,
    (rangeFrom Insert n index cs w).1.1 = Crashed msg -> msg = nilDerefMsg.
Proof.
  induction n as [|n IH]; intros index cs w msg; cbn [rangeFrom];
    [discriminate|].
  destruct (cs !! index) as [c|]; [|discriminate].
  destruct (loopBody Insert index c cs w) as [[[] cs'] w']; cbn [fst].
  - apply IH.
  - discriminate.
  - congruence.
Qed.

(** When the loop meets an item that lacks its channel, snippet or
    resource id, the run ends in a panic at once: the final save is not
    reached, so the disk is as the run found it, whatever the loop did
    before.  Only such an item can make the loop crash. *)
Theorem nil_item_panics_without_save :
  forall (cs : list ChannelImportStatus) (w : World T) (msg : string),
    let start :=
      printf ("Importing up to " +:+ fmtInt (length cs)
              +:+ " unimported channels 1 by 1" +:+ newline) w in
    (applyLoop Insert cs start).1.1 = Crashed msg ->
    msg = nilDerefMsg /\
    applyAndSave Insert gobEncode cs w
      = (Panic msg, (applyLoop Insert cs start).2) /\
    disk (applyAndSave Insert gobEncode cs w).2 = disk w /\
    Exists (fun c => wellFormed c = false) cs.
Proof.
  intros cs w msg start Hcrash.
  assert (Hrun : applyAndSave Insert gobEncode cs w
                 = (Panic msg, (applyLoop Insert cs start).2)).
  { unfold applyAndSave. fold start.
    destruct (applyLoop Insert cs start) as [[o cs'] w'].
    cbn [fst snd] in *. now subst o. }
  split; [exact (rangeFrom_crash_msg _ _ _ _ _ Hcrash)|].
  split; [exact Hrun|]. split.
  - rewrite Hrun. cbn [snd]. unfold applyLoop.
    destruct (rangeFrom_frame Insert (length cs) 0 cs start)
      as (evs & _ & _ & Hdisk & _).
    exact Hdisk.
  - destruct (decide (Forall (fun c => wellFormed c = true) cs)) as [Hall|Hnot].
    + now destruct (rangeFrom_no_crash Insert (length cs) 0 cs start Hall msg).
    + apply not_Forall_Exists in Hnot; [|intros c; apply _].
      eapply Exists_impl; [exact Hnot|].
      intros c Hc. cbn in Hc. now destruct (wellFormed c).
Qed.
End OutcomeFacts.

(** ** The whole of [main] *)

Section MainFacts.
Context {T : Type}.
Variable Insert : T -> list string -> youtube_Subscription -> error * T.
Variable gobEncode : list ChannelImportStatus -> list byte.
Variable gobDecode : list byte -> list ChannelImportStatus * error.

Lemma main_listing_fails (w : World T) (e : string) :
  files (disk w) !! checkpointFile = None ->
  listErr (sourceService w) = Some e ->
  main Insert gobEncode gobDecode w =
    (Fatal ("Unable to list source channels: " +:+ e),
     emit (ListCall ["snippet"; "contentDetails"])
       (println "Encoded file doesnt exist, fetching subscriptions" w)).
Proof.
  intros Hfile Herr.
  unfold main, loadOrBuild, osOpen, mySubscriptions. rewrite Hfile.
  cbn [sourceService println printf emit]. now rewrite Herr.
Qed.

(** When the checkpoint is missing and the listing of the source fails,
    [main] ends with the fatal message that carries the error; the pages
    received before the failure are dropped, nothing is written to the
    disk and the destination is never called. *)
Theorem enumeration_failure_is_fatal_and_clean :
  forall (w : World T) (e : string),
    files (disk w) !! checkpointFile = None ->
    listErr (sourceService w) = Some e ->
    (main Insert gobEncode gobDecode w).1
      = Fatal ("Unable to list source channels: " +:+ e) /\
    disk (main Insert gobEncode gobDecode w).2 = disk w /\
    targetService (main Insert gobEncode gobDecode w).2 = targetService w /\
    trace (main Insert gobEncode gobDecode w).2 =
      trace w ++
      [Stdout ("Encoded file doesnt exist, fetching subscriptions" +:+ newline);
       ListCall ["snippet"; "contentDetails"]].
Proof.
  intros w e Hfile Herr. rewrite (main_listing_fails w e Hfile Herr).
  cbn [fst snd disk targetService trace println printf emit].
  rewrite <- app_assoc. repeat split; reflexivity.
Qed.


End MainFacts.

Section DiskFacts.
Context {T : Type}.
Variable Insert : T -> list string -> youtube_Subscription -> error * T.
Variable gobEncode : list ChannelImportStatus -> list byte.
Variable gobDecode : list byte -> list ChannelImportStatus * error.

(** The three ways a save can go, and what each leaves on the disk. *)
Lemma writeStatusesToFile_cases cs (w : World T) :
  match createErr (disk w), writeErr (disk w) with
  | Some e, _ => writeStatusesToFile gobEncode cs w = (Some e, w)
  | None, Some e =>
      (writeStatusesToFile gobEncode cs w).1 = Some e /\
      files (disk (writeStatusesToFile gobEncode cs w).2)
        = <[checkpointFile := []]> (files (disk w))
  | None, None =>
      (writeStatusesToFile gobEncode cs w).1 = None /\
      files (disk (writeStatusesToFile gobEncode cs w).2)
        = <[checkpointFile := gobEncode cs]> (files (disk w))
  end /\
  createErr (disk (writeStatusesToFile gobEncode cs w).2) = createErr (disk w) /\
  writeErr (disk (writeStatusesToFile gobEncode cs w).2) = writeErr (disk w) /\
  targetService (writeStatusesToFile gobEncode cs w).2 = targetService w.
Proof.
  unfold writeStatusesToFile, osCreate, encoderEncode.
  destruct (createErr (disk w)) as [e|] eqn:Hc.
  { cbn [snd]. now rewrite Hc. }
  cbn [disk setDisk println printf emit writeErr].
  destruct (writeErr (disk w)) as [e|] eqn:Hw;
    cbn [fst snd disk setDisk println printf emit files createErr writeErr
         targetService];
    rewrite ?insert_insert_eq; repeat split; reflexivity.
Qed.



(** A save on a disk that accepts it replaces the checkpoint and nothing
    else. *)
Lemma writeStatusesToFile_ok_files cs (w : World T) :
  createErr (disk w) = None -> writeErr (disk w) = None ->
  exists w',
    writeStatusesToFile gobEncode cs w = (None, w') /\
    files (disk w') = <[checkpointFile := gobEncode cs]> (files (disk w)) /\
    createErr (disk w') = None /\ writeErr (disk w') = None /\
    targetService w' = targetService w /\
    trace w' = trace w ++
      [Stdout ("Encoding channelStatuses to file" +:+ newline);
       FileWrite checkpointFile (gobEncode cs)].
Proof.
  intros Hc Hw.
  pose proof (writeStatusesToFile_cases cs w) as (Hcase & Hc' & Hw' & Ht).
  rewrite Hc, Hw in Hcase. destruct Hcase as [Herr Hfiles].
  destruct (writeStatusesToFile_ok gobEncode cs w Hc Hw)
    as (w' & Hsave & _ & Htr & _).
  rewrite Hsave in *. cbn [fst snd] in *. exists w'.
  repeat split; try assumption; congruence.
Qed.

(** Once every item is Imported, another run changes nothing: with a
    checkpoint that holds the encoding of such a plan, on a disk that
    accepts writes and with a codec that reads the plan back, [main]
    returns normally, lists nothing, sends no insert request, leaves the
    destination alone and leaves every file, the checkpoint included,
    with the content it had. *)
Theorem finished_transfer_rerun_changes_nothing :
  forall (cs : list ChannelImportStatus) (w : World T),
    files (disk w) !! checkpointFile = Some (gobEncode cs) ->
    gobDecode (gobEncode cs) = (cs, None) ->
    Forall (fun c => wellFormed c = true) cs ->
    Forall (fun c => Imported c = true) cs ->
    createErr (disk w) = None ->
    writeErr (disk w) = None ->
    (main Insert gobEncode gobDecode w).1 = Returned /\
    files (disk (main Insert gobEncode gobDecode w).2) = files (disk w) /\
    targetService (main Insert gobEncode gobDecode w).2 = targetService w /\
    exists evs,
      trace (main Insert gobEncode gobDecode w).2 = trace w ++ evs /\
      insertCalls evs = [] /\ listCalls evs = 0.
Proof.
  intros cs w Hfile Hcodec Hwf Himp Hc Hw. unfold main.
  rewrite (loadOrBuild_present gobEncode gobDecode w _ Hfile), Hcodec. cbn [fst].
  set (w0 := println _ w). unfold applyAndSave, applyLoop.
  set (start := printf _ w0).
  assert (Hnone : filter (fun c => Imported c = false) cs = []).
  { clear -Himp. induction Himp as [|c cs Hc _ IH]; [reflexivity|].
    rewrite filter_cons_False by (rewrite Hc; discriminate). exact IH. }
  assert (Hid : setImported <$> cs = cs).
  { clear -Himp. induction Himp as [|c cs Hc _ IH]; [reflexivity|].
    cbn [fmap list_fmap]. rewrite (setImported_id c Hc). f_equal. exact IH. }
  destruct (rangeFrom_duplicates Insert cs [] start Hwf) as (w' & Hrun & Htgt).
  { rewrite Hnone. cbn [requests]. intros body Hin. now apply elem_of_nil in Hin. }
  destruct (rangeFrom_calls Insert cs [] start) as (evs & Htr & Hpre).
  destruct (rangeFrom_frame Insert (length cs) 0 cs start)
    as (evs' & Htr0 & Hl0 & Hdisk & _).
  cbn [app length] in Hrun, Htr. rewrite Hrun in *.
  cbn [snd] in Htr, Htr0, Hdisk.
  rewrite Htr in Htr0. apply app_inv_head in Htr0. subst evs'.
  rewrite Hnone in Hpre. cbn [requests] in Hpre. apply prefix_nil_inv in Hpre.
  change (disk start) with (disk w) in Hdisk.
  rewrite <- Hdisk in Hc, Hw.
  destruct (writeStatusesToFile_ok_files (setImported <$> cs) w' Hc Hw)
    as (w'' & Hsave & Hfiles & _ & _ & Htgt' & Htr').
  rewrite Hsave. cbn [fst snd]. split; [reflexivity|]. split.
  { rewrite Hfiles, Hdisk, Hid. now apply insert_id. }
  split; [now rewrite Htgt', Htgt|].
  eexists. rewrite Htr', Htr. subst start w0.
  cbn [trace println printf emit]. rewrite <- !app_assoc.
  split; [reflexivity|].
  cbn [app insertCalls listCalls]. rewrite insertCalls_app, listCalls_app, Hpre.
  split; [reflexivity|]. now rewrite Hl0.
Qed.
(** A run that is stopped by the quota after [k] accepted requests, on a
    disk that accepts the final save. *)
Lemma applyAndSave_halts cs (w : World T) k e :
  Forall (fun c => wellFormed c = true /\ Imported c = false) cs ->
  k < length cs ->
  responses Insert (targetService w) (requests (take (S k) cs))
    = replicate k None ++ [Some e] ->
  HasSuffix e "quotaExceeded" = true ->
  createErr (disk w) = None -> writeErr (disk w) = None ->
  exists w',
    applyAndSave Insert gobEncode cs w = (Returned, w') /\
    files (disk w')
      = <[checkpointFile := gobEncode ((setImported <$> take k cs) ++ drop k cs)]>
          (files (disk w)) /\
    createErr (disk w') = None /\ writeErr (disk w') = None.
Proof.
  intros Hall Hk Hresp Hq Hc Hw. unfold applyAndSave, applyLoop.
  set (start := printf _ w).
  destruct (rangeFrom_quota Insert k cs [] start e Hall Hk Hresp Hq) as [w' Hrun].
  destruct (rangeFrom_frame Insert (length cs) 0 cs start)
    as (evs & _ & _ & Hdisk & _).
  cbn [app length] in Hrun. rewrite Hrun in *. cbn [snd] in Hdisk.
  change (disk start) with (disk w) in Hdisk. rewrite <- Hdisk in Hc, Hw.
  destruct (writeStatusesToFile_ok_files
              ((setImported <$> take k cs) ++ drop k cs) w' Hc Hw)
    as (w'' & Hsave & Hfiles & Hc' & Hw' & _).
  rewrite Hsave. exists w''. rewrite Hfiles, Hdisk. repeat split; assumption.
Qed.

(** A run in which every pending request is accepted, on a disk that
    accepts the final save. *)
Lemma applyAndSave_accepted cs (w : World T) :
  Forall (fun c => wellFormed c = true) cs ->
  responses Insert (targetService w)
    (requests (filter (fun c => Imported c = false) cs))
    = replicate (length (filter (fun c => Imported c = false) cs)) None ->
  createErr (disk w) = None -> writeErr (disk w) = None ->
  exists w' evs,
    applyAndSave Insert gobEncode cs w = (Returned, w') /\
    files (disk w')
      = <[checkpointFile := gobEncode (setImported <$> cs)]> (files (disk w)) /\
    trace w' = trace w ++ evs /\
    insertCalls evs = requests (filter (fun c => Imported c = false) cs) /\
    listCalls evs = 0.
Proof.
  intros Hall Hresp Hc Hw. unfold applyAndSave, applyLoop.
  set (start := printf _ w).
  destruct (rangeFrom_accepted Insert cs [] start Hall Hresp) as (w' & Hrun & Hdisk).
  destruct (rangeFrom_frame Insert (length cs) 0 cs start)
    as (evs & Htr & Hl & _).
  destruct (rangeFrom_completed_calls Insert cs [] start)
    as (_ & evs' & Htr' & Hcalls).
  { cbn [app length] in Hrun. cbn [app length]. now rewrite Hrun. }
  cbn [app length] in Hrun, Htr'. rewrite Hrun in *. cbn [snd] in Htr, Htr'.
  rewrite Htr in Htr'. apply app_inv_head in Htr'. subst evs'.
  change (disk start) with (disk w) in Hdisk. rewrite <- Hdisk in Hc, Hw.
  destruct (writeStatusesToFile_ok_files (setImported <$> cs) w' Hc Hw)
    as (w'' & Hsave & Hfiles & _ & _ & _ & Htr'').
  rewrite Hsave. eexists w'', _. split; [reflexivity|].
  split; [now rewrite Hfiles, Hdisk|]. split.
  { rewrite Htr'', Htr. subst start. cbn [trace printf emit].
    rewrite <- !app_assoc. reflexivity. }
  cbn [app insertCalls listCalls].
  rewrite insertCalls_app, listCalls_app, Hcalls, Hl. cbn [insertCalls listCalls].
  now rewrite app_nil_r.
Qed.

Lemma filter_pending_imported (l : list ChannelImportStatus) :
  filter (fun c => Imported c = false) (setImported <$> l) = [].
Proof.
  induction l as [|c l IH]; [reflexivity|]. cbn [fmap list_fmap].
  rewrite filter_cons_False by (cbn; discriminate). exact IH.
Qed.

Lemma filter_pending_all (l : list ChannelImportStatus) :
  Forall (fun c => Imported c = false) l ->
  filter (fun c => Imported c = false) l = l.
Proof.
  induction 1 as [|c l Hc _ IH]; [reflexivity|].
  rewrite filter_cons_True by assumption. now rewrite IH.
Qed.

Lemma setImported_wellFormed (l : list ChannelImportStatus) :
  Forall (fun c => wellFormed c = true) l ->
  Forall (fun c => wellFormed c = true) (setImported <$> l).
Proof.
  intros Hall. apply Forall_fmap. eapply Forall_impl; [exact Hall|].
  intros c Hc. exact Hc.
Qed.

(** The transfer over two invocations.  The first finds no checkpoint,
    snapshots the source, has [k] requests accepted and is stopped by the
    quota; it returns normally and leaves the encoding of the statuses
    with the first [k] items Imported.  The second, started on the disk
    the first one left and with a destination that now accepts the
    remaining requests, does not list the source, sends requests for the
    items from position [k] on only, returns normally and leaves the
    encoding of the plan with every item Imported. *)
Theorem resume_after_quota_completes :
  forall (w w2 : World T) (k : nat) (e : string),
    let plan := freshPlan (sourceService w) in
    let mid := (setImported <$> take k plan) ++ drop k plan in
    files (disk w) !! checkpointFile = None ->
    listErr (sourceService w) = None ->
    createErr (disk w) = None ->
    writeErr (disk w) = None ->
    Forall (fun c => wellFormed c = true) plan ->
    k < length plan ->
    responses Insert (targetService w) (requests (take (S k) plan))
      = replicate k None ++ [Some e] ->
    HasSuffix e "quotaExceeded" = true ->
    gobDecode (gobEncode mid) = (mid, None) ->
    disk w2 = disk (main Insert gobEncode gobDecode w).2 ->
    responses Insert (targetService w2) (requests (drop k plan))
      = replicate (length plan - k) None ->
    (main Insert gobEncode gobDecode w).1 = Returned /\
    files (disk (main Insert gobEncode gobDecode w).2) !! checkpointFile
      = Some (gobEncode mid) /\
    (main Insert gobEncode gobDecode w2).1 = Returned /\
    files (disk (main Insert gobEncode gobDecode w2).2) !! checkpointFile
      = Some (gobEncode (setImported <$> plan)) /\
    exists evs,
      trace (main Insert gobEncode gobDecode w2).2 = trace w2 ++ evs /\
      insertCalls evs = requests (drop k plan) /\
      listCalls evs = 0.
Proof.
  intros w w2 k e plan mid Hfile Herr Hc Hw Hwf Hk Hresp Hq Hcodec Hdisk2 Hresp2.
  assert (Hpend : Forall (fun c => Imported c = false) plan)
    by (unfold plan, freshPlan; now apply Forall_fmap, Forall_true).
  assert (Hboth : Forall (fun c => wellFormed c = true /\ Imported c = false) plan)
    by (apply Forall_and; split; assumption).
  (* the first invocation *)
  assert (Hday1 : exists w',
    main Insert gobEncode gobDecode w = (Returned, w') /\
    files (disk w') !! checkpointFile = Some (gobEncode mid) /\
    createErr (disk w') = None /\ writeErr (disk w') = None).
  { unfold main. rewrite (loadOrBuild_absent gobEncode gobDecode w Hfile Herr).
    fold plan. set (w0 := println "Importing into array" _).
    destruct (writeStatusesToFile_ok_files plan w0 Hc Hw)
      as (w1 & Hsave & Hfiles & Hc1 & Hw1 & Ht1 & _).
    rewrite Hsave.
    destruct (applyAndSave_halts plan w1 k e Hboth Hk) as (w' & Hrun & Hf & Hc' & Hw');
      [now rewrite Ht1 | exact Hq | exact Hc1 | exact Hw1 |].
    exists w'. rewrite Hrun, Hf. split; [reflexivity|].
    split; [apply lookup_insert_eq|]. split; assumption. }
  destruct Hday1 as (w' & Hmain1 & Hfile1 & Hc1 & Hw1).
  rewrite Hmain1 in *. cbn [fst snd] in *.
  split; [reflexivity|]. split; [exact Hfile1|].
  (* the second invocation *)
  assert (Hfilter : filter (fun c => Imported c = false) mid = drop k plan).
  { unfold mid. rewrite filter_app, filter_pending_imported.
    apply filter_pending_all. now apply Forall_drop. }
  assert (Hwfmid : Forall (fun c => wellFormed c = true) mid).
  { unfold mid. apply Forall_app. split.
    - apply setImported_wellFormed. now apply Forall_take.
    - now apply Forall_drop. }
  assert (Hdone : setImported <$> mid = setImported <$> plan).
  { unfold mid. rewrite fmap_app, <- list_fmap_compose.
    rewrite <- (take_drop k plan) at 3. now rewrite fmap_app. }
  rewrite <- Hdisk2 in Hfile1, Hc1, Hw1.
  unfold main.
  rewrite (loadOrBuild_present gobEncode gobDecode w2 _ Hfile1), Hcodec. cbn [fst].
  set (w0 := println _ w2).
  destruct (applyAndSave_accepted mid w0 Hwfmid)
    as (w'' & evs & Hrun & Hfiles & Htr & Hcalls & Hl);
    [|exact Hc1|exact Hw1|].
  { rewrite Hfilter, length_drop. exact Hresp2. }
  rewrite Hrun. cbn [fst snd]. split; [reflexivity|].
  split; [rewrite Hfiles, Hdone; apply lookup_insert_eq|].
  eexists (_ :: evs). rewrite Htr. subst w0. cbn [trace println printf emit].
  rewrite <- app_assoc. split; [reflexivity|].
  cbn [insertCalls listCalls]. rewrite Hcalls, Hfilter. now split.
Qed.
End DiskFacts.

(** ** The token cache *)

Section AuthFacts.
Variable Token : Type.
Variable jsonEncode : Token -> list byte.
Variable jsonDecode : list byte -> Token * error.
Variable currentUser : string + string.
Variable Join : string -> string -> string.
Variable QueryEscape : string -> string.
Variable authURL : string.
Variable Exchange : string -> Token + string.
Variable scanErr : string.

Lemma tokenCacheFile_home (name home : string) :
  currentUser = inl home ->
  tokenCacheFile currentUser Join QueryEscape name
    = (Join (Join home ".credentials") (QueryEscape (name +:+ ".json")), None).
Proof. intros Huser. unfold tokenCacheFile. now rewrite Huser. Qed.

Lemma getClient_hit (name home : string) (s : Session) content tok :
  currentUser = inl home ->
  files (sessionDisk s)
    !! Join (Join home ".credentials") (QueryEscape (name +:+ ".json"))
    = Some content ->
  jsonDecode content = (tok, None) ->
  getClient Token jsonEncode jsonDecode currentUser Join QueryEscape authURL
    Exchange scanErr name s
    = (inr (Some tok), s).
Proof.
  intros Huser Hfile Hdec.
  unfold getClient. rewrite (tokenCacheFile_home name home Huser).
  unfold tokenFromFile. now rewrite Hfile, Hdec.
Qed.

(** A cached token that decodes is used as it is: [getClient] prints
    nothing, reads nothing from standard input, sends no code to the
    exchange and leaves the disk alone. *)
Theorem cached_token_is_used_silently :
  forall (name home : string) (s : Session) (content : list byte) (tok : Token),
    currentUser = inl home ->
    files (sessionDisk s)
      !! Join (Join home ".credentials") (QueryEscape (name +:+ ".json"))
      = Some content ->
    jsonDecode content = (tok, None) ->
    getClient Token jsonEncode jsonDecode currentUser Join QueryEscape authURL
      Exchange scanErr name s
      = (inr (Some tok), s).
Proof.
  intros name home s content tok Huser Hfile Hdec.
  now apply getClient_hit with (home := home) (content := content).
Qed.

(** The path taken by [getClient] when the cache file is missing or does
    not decode. *)
Lemma getClient_miss (name home : string) (s : Session) :
  currentUser = inl home ->
  (files (sessionDisk s)
     !! Join (Join home ".credentials") (QueryEscape (name +:+ ".json")) = None \/
   exists content t e,
     files (sessionDisk s)
       !! Join (Join home ".credentials") (QueryEscape (name +:+ ".json"))
       = Some content /\ jsonDecode content = (t, Some e)) ->
  getClient Token jsonEncode jsonDecode currentUser Join QueryEscape authURL
    Exchange scanErr name s
  = match getTokenFromWeb Token authURL Exchange scanErr name s with
    | (inl exit, s') => (inl exit, s')
    | (inr tok, s') =>
        match saveToken Token jsonEncode
                (Join (Join home ".credentials") (QueryEscape (name +:+ ".json")))
                tok s' with
        | (Some exit, s'') => (inl exit, s'')
        | (None, s'') => (inr (Some tok), s'')
        end
    end.
Proof.
  intros Huser Hmiss. unfold getClient.
  rewrite (tokenCacheFile_home name home Huser). unfold tokenFromFile.
  destruct Hmiss as [Hnone|(content & t & e & Hfile & Hdec)].
  - now rewrite Hnone.
  - now rewrite Hfile, Hdec.
Qed.

(** A token fetched from the web is cached for the next call.  When the
    cache file is missing or does not decode, a code is waiting on
    standard input, the exchange accepts it and the disk accepts the
    write, [getClient] uses the fetched token, consumes exactly that
    code, and leaves the encoded token in the cache file, replacing what
    was there.  With a codec that reads the token back, the next call
    returns the same token without touching anything. *)
Theorem fetched_token_is_cached :
  forall (name home code : string) (words : list string) (s : Session)
         (tok : Token),
    let path := Join (Join home ".credentials") (QueryEscape (name +:+ ".json")) in
    currentUser = inl home ->
    (files (sessionDisk s) !! path = None \/
     exists content t e,
       files (sessionDisk s) !! path = Some content /\
       jsonDecode content = (t, Some e)) ->
    stdin s = code :: words ->
    Exchange code = inl tok ->
    createErr (sessionDisk s) = None ->
    writeErr (sessionDisk s) = None ->
    jsonDecode (jsonEncode tok) = (tok, None) ->
    exists s',
      getClient Token jsonEncode jsonDecode currentUser Join QueryEscape authURL
        Exchange scanErr name s = (inr (Some tok), s') /\
      stdin s' = words /\
      exchanged s' = exchanged s ++ [code] /\
      files (sessionDisk s') = <[path := jsonEncode tok]> (files (sessionDisk s)) /\
      getClient Token jsonEncode jsonDecode currentUser Join QueryEscape authURL
        Exchange scanErr name s' = (inr (Some tok), s').
Proof.
  intros name home code words s tok path Huser Hmiss Hin Hex Hc Hw Hcodec.
  rewrite (getClient_miss name home s Huser Hmiss).
  unfold getTokenFromWeb. cbn [stdin say]. rewrite Hin, Hex.
  unfold saveToken. cbn [sessionDisk say]. rewrite Hc, Hw.
  eexists. split; [reflexivity|]. cbn [stdin exchanged sessionDisk files].
  repeat split.
  apply getClient_hit with (home := home) (content := jsonEncode tok);
    [exact Huser| |exact Hcodec].
  cbn [sessionDisk files]. apply lookup_insert_eq.
Qed.


(** The error of the write in [saveToken] is dropped: when the file can
    be created but not written, [getClient] still returns the fetched
    token and leaves an empty cache file; if an empty file does not
    decode, the next call asks for a code again. *)
Theorem unwritten_token_is_asked_again :
  forall (name home code code2 : string) (words : list string) (s : Session)
         (tok tok2 t0 : Token) (e e0 : string),
    let path := Join (Join home ".credentials") (QueryEscape (name +:+ ".json")) in
    currentUser = inl home ->
    files (sessionDisk s) !! path = None ->
    stdin s = code :: code2 :: words ->
    Exchange code = inl tok ->
    Exchange code2 = inl tok2 ->
    createErr (sessionDisk s) = None ->
    writeErr (sessionDisk s) = Some e ->
    jsonDecode [] = (t0, Some e0) ->
    exists s',
      getClient Token jsonEncode jsonDecode currentUser Join QueryEscape authURL
        Exchange scanErr name s = (inr (Some tok), s') /\
      files (sessionDisk s') !! path = Some [] /\
      exists s'',
        getClient Token jsonEncode jsonDecode currentUser Join QueryEscape authURL
          Exchange scanErr name s' = (inr (Some tok2), s'') /\
        exchanged s'' = exchanged s ++ [code; code2] /\
        stdin s'' = words.
Proof.
  intros name home code code2 words s tok tok2 t0 e e0 path
         Huser Hfile Hin Hex Hex2 Hc Hw Hdec.
  rewrite (getClient_miss name home s Huser (or_introl Hfile)).
  unfold getTokenFromWeb. cbn [stdin say]. rewrite Hin, Hex.
  unfold saveToken. cbn [sessionDisk say]. rewrite Hc, Hw.
  eexists. split; [reflexivity|]. cbn [sessionDisk files].
  split; [apply lookup_insert_eq|].
  rewrite getClient_miss with (home := home); [|exact Huser|].
  2:{ right. exists [], t0, e0. cbn [sessionDisk files].
      split; [apply lookup_insert_eq|exact Hdec]. }
  unfold getTokenFromWeb. cbn [stdin say]. rewrite Hex2.
  unfold saveToken. cbn [sessionDisk say createErr writeErr].
  rewrite ?Hc, ?Hw.
  eexists. split; [reflexivity|]. cbn [exchanged stdin say].
  rewrite <- app_assoc. split; reflexivity.
Qed.
End AuthFacts.

(** ** The older variant *)

Lemma legacyFill_fits (src : list (option youtube_Subscription)) :
  forall index (cs : list ChannelImportStatus),
    index + length src <= length cs ->
    legacyFill index src cs =
      inl (take index cs
           ++ ((fun channel => {| Channel := channel; Imported := false |}) <$> src)
           ++ drop (index + length src) cs).
Proof.
  induction src as [|x src IH]; intros index cs Hlen; cbn [legacyFill length] in *.
  - rewrite Nat.add_0_r. cbn [fmap list_fmap app]. now rewrite take_drop.
  - assert (Hlt : index < length cs) by lia.
    apply Nat.ltb_lt in Hlt as Hb. rewrite Hb.
    rewrite IH by (rewrite length_insert; lia).
    f_equal. cbn [fmap list_fmap].
    rewrite (take_S_r _ _ {| Channel := x; Imported := false |})
      by (now apply list_lookup_insert_eq).
    rewrite take_insert_ge by lia.
    rewrite drop_insert_lt by lia.
    rewrite <- app_assoc. cbn [app].
    now replace (S index + length src) with (index + S (length src)) by lia.
Qed.

Lemma legacyFill_overflow (src : list (option youtube_Subscription)) :
  forall index (cs : list ChannelImportStatus),
    index <= length cs -> length cs < index + length src ->
    legacyFill index src cs =
      inr ("runtime error: index out of range [" +:+ fmtInt (length cs)
           +:+ "] with length " +:+ fmtInt (length cs)).
Proof.
  induction src as [|x src IH]; intros index cs Hle Hlt;
    cbn [legacyFill length] in *; [lia|].
  destruct (Nat.ltb index (length cs)) eqn:Hb.
  - apply Nat.ltb_lt in Hb.
    rewrite IH by (rewrite length_insert; lia).
    now rewrite length_insert.
  - apply Nat.ltb_ge in Hb. now replace index with (length cs) by lia.
Qed.

Section LegacyFacts.
Context {T : Type}.
Variable Insert : T -> list string -> youtube_Subscription -> error * T.
Variable gobEncode : list ChannelImportStatus -> list byte.
Variable gobDecodeInto :
  list byte -> list ChannelImportStatus -> list ChannelImportStatus * error.

(** The first run of the older variant works for exactly one hundred
    subscriptions.  With fewer the slice cannot be made, with more the
    assignment runs past its length: both panic after the listing, before
    any insert call and without writing a checkpoint.  With exactly one
    hundred the loop starts on the enumerated channels, none imported. *)
Theorem legacy_first_run_needs_exactly_100 :
  forall w : World T,
    files (disk w) !! checkpointFile = None ->
    listErr (sourceService w) = None ->
    let channels := concat (pages (sourceService w)) in
    let w0 :=
      emit (ListCall ["snippet"; "contentDetails"])
        (println "Encoded file doesnt exist, fetching subscriptions" w) in
    (length channels < 100 ->
     legacyMain Insert gobEncode gobDecodeInto w
       = (Panic "runtime error: makeslice: cap out of range", w0)) /\
    (100 < length channels ->
     legacyMain Insert gobEncode gobDecodeInto w
       = (Panic "runtime error: index out of range [100] with length 100", w0)) /\
    (length channels = 100 ->
     legacyMain Insert gobEncode gobDecodeInto w
       = legacyApplyAndSave Insert gobEncode (freshPlan (sourceService w)) w0).
Proof.
  intros w Hfile Herr channels w0.
  assert (Hmain : legacyMain Insert gobEncode gobDecodeInto w =
    match makeStatuses 100 (length channels) with
    | inr msg => (Panic msg, w0)
    | inl cs =>
        match legacyFill 0 channels cs with
        | inr msg => (Panic msg, w0)
        | inl cs => legacyApplyAndSave Insert gobEncode cs w0
        end
    end).
  { unfold legacyMain, osOpen, mySubscriptions. rewrite Hfile.
    cbn [sourceService println printf emit]. rewrite Herr, fold_pages.
    reflexivity. }
  rewrite Hmain. unfold makeStatuses. repeat split.
  - intros Hlt. apply Nat.ltb_lt in Hlt. now rewrite Hlt.
  - intros Hgt. assert (Hb : Nat.ltb (length channels) 100 = false)
      by (apply Nat.ltb_ge; lia).
    rewrite Hb, legacyFill_overflow; rewrite ?length_replicate; [reflexivity|lia|lia].
  - intros Heq. assert (Hb : Nat.ltb (length channels) 100 = false)
      by (apply Nat.ltb_ge; lia).
    rewrite Hb, legacyFill_fits by (rewrite length_replicate; cbn; lia).
    cbn [take plus]. rewrite Heq, drop_ge by (rewrite length_replicate; lia).
    now rewrite app_nil_r.
Qed.

Lemma legacyBody_slice c cs (w : World T) :
  (legacyBody Insert c cs w).1.2 = cs.
Proof.
  unfold legacyBody.
  destruct (Channel c) as [[[sn|]]|]; try reflexivity.
  cbn [Snippet]. cbv zeta.
  destruct (Imported c); [reflexivity|].
  match goal with
  | |- context [Insert ?a ?b ?d] => destruct (Insert a b d) as [[e|] t]
  end; reflexivity.
Qed.

Lemma legacyRange_slice n :
  forall index cs (w : World T),
    (legacyRange Insert n index cs w).1.2 = cs /\
    (legacyRange Insert n index cs w).1.1 <> HaltedOnQuota.
Proof.
  induction n as [|n IH]; intros index cs w; cbn [legacyRange];
    [split; [reflexivity|discriminate]|].
  destruct (cs !! index) as [c|]; [|split; [reflexivity|discriminate]].
  pose proof (legacyBody_slice c cs w) as Hs.
  destruct (legacyBody Insert c cs w) as [[[[] c'] cs'] w'];
    cbn [fst snd] in Hs; subst cs'; try apply IH.
  split; [reflexivity|discriminate].
Qed.

Lemma legacyRange_middle (done rest : list ChannelImportStatus) c (w : World T) :
  legacyRange Insert (S (length rest)) (length done) (done ++ c :: rest) w =
  match legacyBody Insert c (done ++ c :: rest) w with
  | (NilDeref, _, cs, w) => (Crashed nilDerefMsg, cs, w)
  | (_, _, cs, w) => legacyRange Insert (length rest) (S (length done)) cs w
  end.
Proof. cbn [legacyRange]. now rewrite list_lookup_middle. Qed.

Lemma rangeFromShiftLegacy (done rest : list ChannelImportStatus) c (w : World T) :
  legacyRange Insert (length rest) (S (length done)) (done ++ c :: rest) w =
  legacyRange Insert (length rest) (length (done ++ [c])) ((done ++ [c]) ++ rest) w.
Proof. rewrite length_app, Nat.add_1_r, <- app_assoc. reflexivity. Qed.

Lemma legacyRange_calls (rest : list ChannelImportStatus) :
  forall (done : list ChannelImportStatus) (w : World T),
    Forall (fun c => hasSnippet c = true) rest ->
    exists w' evs,
      legacyRange Insert (length rest) (length done) (done ++ rest) w
        = (Completed, done ++ rest, w') /\
      trace w' = trace w ++ evs /\
      insertCalls evs = legacyRequests rest /\
      disk w' = disk w.
Proof.
  induction rest as [|c rest IH]; intros done w Hall.
  { exists w, []. cbn. rewrite !app_nil_r. repeat split. }
  apply Forall_cons in Hall as [Hc Hall].
  cbn [length]. rewrite legacyRange_middle.
  unfold legacyBody, legacyRequests, hasSnippet in *.
  destruct (Channel c) as [[[sn|]]|] eqn:Hch; try discriminate.
  cbn [Snippet]. cbv zeta.
  destruct (Imported c) eqn:Himp.
  - rewrite filter_cons_False by (rewrite Himp; discriminate).
    rewrite (rangeFromShiftLegacy done rest c).
    set (w1 := printf _ w).
    destruct (IH (done ++ [c]) w1 Hall) as (w' & evs & Hrun & Htr & Hcalls & Hd).
    exists w'. eexists (_ :: evs). rewrite Hrun, <- app_assoc.
    split; [reflexivity|]. rewrite Htr. subst w1. cbn [trace printf emit].
    rewrite <- app_assoc. repeat split; assumption.
  - rewrite filter_cons_True by assumption. cbn [omap list_omap]. rewrite Hch.
    cbn [emit printf targetService].
    destruct (Insert (targetService w) ["snippet"; "contentDetails"]
                {| Snippet := Some sn |}) as [[e|] t];
      rewrite (rangeFromShiftLegacy done rest c);
      set (w1 := printf _ _);
      destruct (IH (done ++ [c]) w1 Hall) as (w' & evs & Hrun & Htr & Hcalls & Hd);
      exists w'; eexists ([_; InsertCall _ _; _] ++ evs);
      rewrite Hrun, <- app_assoc;
      (split; [reflexivity|]); rewrite Htr; subst w1;
      cbn [trace printf emit setTarget]; rewrite <- !app_assoc;
      (split; [reflexivity|]); cbn [app insertCalls]; rewrite Hcalls;
      split; [reflexivity|exact Hd|reflexivity|exact Hd].
Qed.
(** The older loop never records progress and never stops early.  The
    assignment [channelStatus.Imported = true] goes to the copy that
    [range] hands out, so the slice leaves the loop as it entered it and
    the loop never ends on the quota.  On items that have their snippet
    the loop reaches the end after one insert request for every item not
    marked as imported, whatever the destination answered; the save then
    writes the encoding of the statuses as they were, and a save that
    cannot create the file ends the run in a panic. *)
Theorem legacy_run_records_nothing :
  forall (cs : list ChannelImportStatus) (w : World T),
    (legacyRange Insert (length cs) 0 cs w).1.2 = cs /\
    (legacyRange Insert (length cs) 0 cs w).1.1 <> HaltedOnQuota /\
    (Forall (fun c => hasSnippet c = true) cs ->
     exists w' evs,
       legacyRange Insert (length cs) 0 cs w = (Completed, cs, w') /\
       trace w' = trace w ++ evs /\
       insertCalls evs = legacyRequests cs /\
       (createErr (disk w) = None -> writeErr (disk w) = None ->
        (legacyApplyAndSave Insert gobEncode cs w).1 = Returned /\
        files (disk (legacyApplyAndSave Insert gobEncode cs w).2) !! checkpointFile
          = Some (gobEncode cs)) /\
       (forall e, createErr (disk w) = Some e ->
                  (legacyApplyAndSave Insert gobEncode cs w).1 = Panic e)).
Proof.
  intros cs w.
  split; [apply legacyRange_slice|]. split; [apply legacyRange_slice|].
  intros Hall.
  destruct (legacyRange_calls cs [] w Hall) as (w' & evs & Hrun & Htr & Hcalls & Hd).
  cbn [app length] in Hrun. exists w', evs.
  split; [exact Hrun|]. split; [exact Htr|]. split; [exact Hcalls|].
  unfold legacyApplyAndSave. rewrite Hrun.
  unfold legacySave, osCreate, encoderEncode. rewrite Hd. split.
  - intros Hc Hw. rewrite Hc. cbn [disk setDisk writeErr]. rewrite Hw.
    cbn [fst snd disk setDisk emit files]. split; [reflexivity|].
    apply lookup_insert_eq.
  - intros e Hc. now rewrite Hc.
Qed.

(** With a checkpoint that the decoder rejects, leaving the slice of one
    hundred zero statuses as it was, the older variant panics on the nil
    channel of the first status: no insert request is sent and the disk
    is not touched. *)
Theorem legacy_undecodable_checkpoint_panics :
  forall (w : World T) (content : list byte) (e : string),
    files (disk w) !! checkpointFile = Some content ->
    gobDecodeInto content (replicate 100 zeroStatus)
      = (replicate 100 zeroStatus, Some e) ->
    legacyMain Insert gobEncode gobDecodeInto w
      = (Panic nilDerefMsg,
         println "Encoded file exists, decoding into channelStatuses" w).
Proof.
  intros w content e Hfile Hdec.
  unfold legacyMain, osOpen. rewrite Hfile.
  change (makeStatuses 100 250) with
    (inl (replicate 100 zeroStatus) : list ChannelImportStatus + string).
  cbv beta zeta match. rewrite Hdec. reflexivity.
Qed.
End LegacyFacts.

(** ** The further theorems at concrete inputs *)

Lemma accepted_run_completes_witness :
  let w := Demo.world (Demo.okDisk ∅) Demo.noSource [None] in
  (applyLoop Scripted.Insert Demo.rerunPlan w).1
    = (Completed,
       [Demo.item "UC-a" "Alpha" true; Demo.item "UC-b" "Beta" true]) /\
  files (disk (applyAndSave Scripted.Insert Demo.encode Demo.rerunPlan w).2)
    !! checkpointFile
    = Some (Demo.encode
              [Demo.item "UC-a" "Alpha" true; Demo.item "UC-b" "Beta" true]).
Proof.
  intros w.
  destruct (accepted_run_completes Scripted.Insert Demo.encode Demo.rerunPlan w)
    as (Hloop & _ & Hfile).
  - repeat constructor.
  - reflexivity.
  - split; [exact Hloop|]. apply Hfile; reflexivity.
Defined.

Lemma completed_run_calls_each_pending_item_once_witness :
  let w := Demo.world (Demo.okDisk ∅) Demo.noSource [Some Demo.otherErr] in
  exists evs,
    trace (applyLoop Scripted.Insert Demo.rerunPlan w).2 = evs /\
    insertCalls evs
      = [channelToSubscribeTo {| ChannelId := "UC-b"; Kind := "youtube#channel" |}].
Proof.
  intros w.
  destruct (completed_run_calls_each_pending_item_once Scripted.Insert
              Demo.rerunPlan w eq_refl)
    as (_ & evs & Htr & Hcalls & _).
  exists evs. split; [exact Htr|exact Hcalls].
Defined.

Lemma nil_item_panics_without_save_witness :
  let w := Demo.world (Demo.okDisk ∅) Demo.noSource [None; None] in
  (applyAndSave Scripted.Insert Demo.encode Samples.brokenPlan w).1
    = Panic nilDerefMsg /\
  disk (applyAndSave Scripted.Insert Demo.encode Samples.brokenPlan w).2
    = Demo.okDisk ∅ /\
  length (insertCalls
            (trace (applyAndSave Scripted.Insert Demo.encode
                      Samples.brokenPlan w).2)) = 1.
Proof.
  intros w.
  destruct (nil_item_panics_without_save Scripted.Insert Demo.encode
              Samples.brokenPlan w nilDerefMsg eq_refl)
    as (_ & Hrun & Hdisk & _).
  split; [now rewrite Hrun|]. split; [exact Hdisk|].
  rewrite Hrun. reflexivity.
Defined.

Lemma enumeration_failure_is_fatal_and_clean_witness :
  let w := Demo.world (Demo.okDisk ∅) Samples.failingSource ([] : list error) in
  (main Scripted.Insert Demo.encode Demo.decode w).1
    = Fatal "Unable to list source channels: googleapi: Error 403: Forbidden, forbidden" /\
  disk (main Scripted.Insert Demo.encode Demo.decode w).2 = Demo.okDisk ∅.
Proof.
  intros w.
  destruct (enumeration_failure_is_fatal_and_clean Scripted.Insert Demo.encode
              Demo.decode w "googleapi: Error 403: Forbidden, forbidden"
              eq_refl eq_refl)
    as (Hexit & Hdisk & _).
  split; [exact Hexit|exact Hdisk].
Defined.



Lemma finished_transfer_rerun_changes_nothing_witness :
  let w :=
    Demo.world
      (Demo.okDisk {[ checkpointFile := Demo.encode Samples.finishedPlan ]})
      Demo.source3 ([] : list error) in
  (main Scripted.Insert Demo.encode Demo.decode w).1 = Returned /\
  files (disk (main Scripted.Insert Demo.encode Demo.decode w).2)
    = {[ checkpointFile := Demo.encode Samples.finishedPlan ]}.
Proof.
  intros w.
  destruct (finished_transfer_rerun_changes_nothing Scripted.Insert Demo.encode
              Demo.decode Samples.finishedPlan w)
    as (Hexit & Hfiles & _);
    [reflexivity | reflexivity | repeat constructor | repeat constructor
    | reflexivity | reflexivity |].
  split; [exact Hexit|exact Hfiles].
Defined.

Lemma resume_after_quota_completes_witness :
  let w := Demo.world (Demo.okDisk ∅) Demo.source3 [None; Some Demo.quotaErr] in
  let w2 :=
    Demo.world (disk (main Scripted.Insert Demo.encode Demo.decode w).2)
      Demo.noSource [None; None] in
  files (disk (main Scripted.Insert Demo.encode Demo.decode w2).2)
    !! checkpointFile = Some (Demo.encode Samples.finishedPlan) /\
  exists evs,
    trace (main Scripted.Insert Demo.encode Demo.decode w2).2 = evs /\
    insertCalls evs
      = [channelToSubscribeTo {| ChannelId := "UC-b"; Kind := "youtube#channel" |};
         channelToSubscribeTo {| ChannelId := "UC-c"; Kind := "youtube#channel" |}].
Proof.
  intros w w2.
  destruct (resume_after_quota_completes Scripted.Insert Demo.encode Demo.decode
              w w2 1 Demo.quotaErr)
    as (_ & _ & _ & Hfile & evs & Htr & Hcalls & _);
    [reflexivity | reflexivity | reflexivity | reflexivity
    | repeat constructor | vm_compute; lia | reflexivity | reflexivity
    | reflexivity | reflexivity | reflexivity |].
  split; [exact Hfile|]. exists evs. split; [exact Htr|exact Hcalls].
Defined.

Lemma cached_token_is_used_silently_witness :
  let s :=
    DemoAuth.session {[ DemoAuth.cachePath := DemoAuth.encode "ya29.token" ]}
      None ["4/good"] in
  getClient string DemoAuth.encode DemoAuth.decode DemoAuth.user DemoAuth.Join
    DemoAuth.QueryEscape DemoAuth.authURL DemoAuth.Exchange "EOF" "source" s
    = (inr (Some "ya29.token"), s).
Proof.
  intros s.
  exact (cached_token_is_used_silently string DemoAuth.encode DemoAuth.decode
           DemoAuth.user DemoAuth.Join DemoAuth.QueryEscape DemoAuth.authURL
           DemoAuth.Exchange "EOF" "source" "/home/me" s
           (DemoAuth.encode "ya29.token") "ya29.token"
           eq_refl eq_refl eq_refl).
Defined.

Lemma fetched_token_is_cached_witness :
  let s := DemoAuth.session ∅ None ["4/good"; "4/also-good"] in
  exists s',
    getClient string DemoAuth.encode DemoAuth.decode DemoAuth.user DemoAuth.Join
      DemoAuth.QueryEscape DemoAuth.authURL DemoAuth.Exchange "EOF" "source" s
      = (inr (Some "ya29.token"), s') /\
    stdin s' = ["4/also-good"] /\
    exchanged s' = ["4/good"] /\
    getClient string DemoAuth.encode DemoAuth.decode DemoAuth.user DemoAuth.Join
      DemoAuth.QueryEscape DemoAuth.authURL DemoAuth.Exchange "EOF" "source" s'
      = (inr (Some "ya29.token"), s').
Proof.
  intros s.
  destruct (fetched_token_is_cached string DemoAuth.encode DemoAuth.decode
              DemoAuth.user DemoAuth.Join DemoAuth.QueryEscape DemoAuth.authURL
              DemoAuth.Exchange "EOF" "source" "/home/me" "4/good"
              ["4/also-good"] s "ya29.token"
              eq_refl (or_introl eq_refl) eq_refl eq_refl eq_refl eq_refl eq_refl)
    as (s' & Hget & Hin & Hex & _ & Hagain).
  exists s'. repeat split; assumption.
Defined.

Lemma unwritten_token_is_asked_again_witness :
  let s :=
    DemoAuth.session ∅ (Some "write: no space left on device")
      ["4/good"; "4/also-good"] in
  exists s' s'',
    getClient string DemoAuth.encode DemoAuth.decode DemoAuth.user DemoAuth.Join
      DemoAuth.QueryEscape DemoAuth.authURL DemoAuth.Exchange "EOF" "source" s
      = (inr (Some "ya29.token"), s') /\
    files (sessionDisk s') !! DemoAuth.cachePath = Some [] /\
    getClient string DemoAuth.encode DemoAuth.decode DemoAuth.user DemoAuth.Join
      DemoAuth.QueryEscape DemoAuth.authURL DemoAuth.Exchange "EOF" "source" s'
      = (inr (Some "ya29.second"), s'') /\
    exchanged s'' = ["4/good"; "4/also-good"].
Proof.
  intros s.
  destruct (unwritten_token_is_asked_again string DemoAuth.encode DemoAuth.decode
              DemoAuth.user DemoAuth.Join DemoAuth.QueryEscape DemoAuth.authURL
              DemoAuth.Exchange "EOF" "source" "/home/me" "4/good" "4/also-good"
              [] s "ya29.token" "ya29.second" "" "write: no space left on device"
              "EOF" eq_refl eq_refl eq_refl eq_refl eq_refl eq_refl eq_refl eq_refl)
    as (s' & Hget & Hfile & s'' & Hagain & Hex & _).
  exists s', s''. repeat split; assumption.
Defined.

Lemma legacy_first_run_needs_exactly_100_witness :
  let w3 := Demo.world (Demo.okDisk ∅) Demo.source3 ([] : list error) in
  let w100 := Demo.world (Demo.okDisk ∅) Samples.source100 ([] : list error) in
  (legacyMain Scripted.Insert Demo.encode Samples.decodeInto w3).1
    = Panic "runtime error: makeslice: cap out of range" /\
  legacyMain Scripted.Insert Demo.encode Samples.decodeInto w100
    = legacyApplyAndSave Scripted.Insert Demo.encode
        (freshPlan Samples.source100)
        (emit (ListCall ["snippet"; "contentDetails"])
           (println "Encoded file doesnt exist, fetching subscriptions" w100)).
Proof.
  intros w3 w100. split.
  - rewrite (proj1 (legacy_first_run_needs_exactly_100 Scripted.Insert
                      Demo.encode Samples.decodeInto w3 eq_refl eq_refl)).
    + reflexivity.
    + vm_compute. lia.
  - apply (legacy_first_run_needs_exactly_100 Scripted.Insert Demo.encode
             Samples.decodeInto w100 eq_refl eq_refl).
    reflexivity.
Defined.

Lemma legacy_undecodable_checkpoint_panics_witness :
  let w := Demo.world Demo.truncatedDisk Demo.noSource ([] : list error) in
  (legacyMain Scripted.Insert Demo.encode Samples.decodeInto w).1
    = Panic nilDerefMsg /\
  disk (legacyMain Scripted.Insert Demo.encode Samples.decodeInto w).2
    = Demo.truncatedDisk.
Proof.
  intros w.
  rewrite (legacy_undecodable_checkpoint_panics Scripted.Insert Demo.encode
             Samples.decodeInto w [] "EOF" eq_refl eq_refl).
  split; reflexivity.
Defined.



Lemma legacy_run_records_nothing_witness :
  let w := Demo.world (Demo.okDisk ∅) Demo.noSource [None; None; None] in
  (legacyApplyAndSave Scripted.Insert Demo.encode Demo.plan3 w).1 = Returned /\
  files (disk (legacyApplyAndSave Scripted.Insert Demo.encode Demo.plan3 w).2)
    !! checkpointFile = Some (Demo.encode Demo.plan3) /\
  exists evs,
    insertCalls evs = legacyRequests Demo.plan3 /\ length (insertCalls evs) = 3.
Proof.
  intros w.
  destruct (proj2 (proj2 (legacy_run_records_nothing Scripted.Insert Demo.encode
                            Demo.plan3 w)) ltac:(repeat constructor))
    as (w' & evs & _ & _ & Hcalls & Hsave & _).
  destruct (Hsave eq_refl eq_refl) as [Hexit Hfile].
  split; [exact Hexit|]. split; [exact Hfile|].
  exists evs. split; [exact Hcalls|]. rewrite Hcalls. reflexivity.
Defined.
